(** * Guardrail runner and text2world driver: a shallow embedding

    The two Python modules

      - [cosmos1/models/guardrail/common/core.py]
      - [cosmos1/models/diffusion/inference/text2world.py]

    are embedded as functions in a state-and-exception monad.  The state
    holds what the Python code can observe or change: the receiver object
    [self] and a journal of the effects performed so far (log records,
    calls into checkers and transformers, file writes, ...). *)

From Stdlib Require Import ZArith Ascii String DecimalString DecimalNat.
From stdpp Require Import base option list strings gmap.

Local Open Scope string_scope.
Local Open Scope list_scope.

(** ** Python values shared by both modules *)

(** An exception object: its class and its message. *)
Record exception := PyExc { exc_class : string; exc_msg : string }.

Definition NotImplementedError (msg : string) : exception :=
  PyExc "NotImplementedError" msg.
Definition NameError (name : string) : exception :=
  PyExc "NameError" ("name '" +:+ name +:+ "' is not defined").

(** What a call does: it returns a value or raises. *)
Inductive outcome (A : Type) : Type :=
| Returns (a : A)
| Raises (e : exception).
Arguments Returns {A} a.
Arguments Raises {A} e.

(** Truth value of a [str]: only the empty string is falsy. *)
Definition str_truthy (s : string) : bool :=
  match s with
  | EmptyString => false
  | String _ _ => true
  end.

(** Truth value of a [list | None]: [None] and [[]] are falsy. *)
Definition list_truthy {A} (l : option (list A)) : bool :=
  match l with
  | None | Some [] => false
  | Some (_ :: _) => true
  end.

(** [str.upper] on ASCII text: the letters a-z become A-Z, every other
    byte is kept.  Python's method also maps cased characters outside
    ASCII; statements about upper-cased names are made for ASCII names. *)
Definition upper_ascii (c : ascii) : ascii :=
  let n := nat_of_ascii c in
  if (97 <=? n)%nat && (n <=? 122)%nat then ascii_of_nat (n - 32) else c.

Fixpoint upper (s : string) : string :=
  match s with
  | EmptyString => EmptyString
  | String c s' => String (upper_ascii c) (upper s')
  end.

(** Levels of [cosmos1.utils.log] used by the two modules. *)
Inductive log_level := DEBUG | INFO | WARNING | CRITICAL.

(** ** The monad: state passing with exceptions *)

Module Py.
Definition M (S A : Type) : Type := S -> S * outcome A.

Definition ret {S A} (a : A) : M S A := fun s => (s, Returns a).

Definition bind {S A B} (m : M S A) (k : A -> M S B) : M S B :=
  fun s =>
    match m s with
    | (s', Returns a) => k a s'
    | (s', Raises e) => (s', Raises e)
    end.

Definition raise {S A} (e : exception) : M S A := fun s => (s, Raises e).

Definition get {S} : M S S := fun s => (s, Returns s).

Definition modify {S} (f : S -> S) : M S unit := fun s => (f s, Returns tt).

(** Lift a call whose outcome is already known into the monad. *)
Definition lift {S A} (o : outcome A) : M S A := fun s => (s, o).
End Py.

Notation "'let*' x ':=' c 'in' k" := (Py.bind c (fun x => k))
  (at level 10, x name, c at level 100, k at level 200).
Notation "c ;; k" := (Py.bind c (fun _ => k))
  (at level 100, k at level 200, right associativity).

(** ** core.py *)

(** [class ContentSafetyGuardrail]: an object with an [is_safe] method.  The
    base class itself raises [NotImplementedError]; subclasses override. *)
Module ContentSafetyGuardrail.
Record t (Input : Type) := Build
  { class_name : string;
    is_safe : Input -> outcome (bool * string) }.
Arguments Build {Input}.
Arguments class_name {Input}.
Arguments is_safe {Input}.

Definition base {Input} : t Input :=
  {| class_name := "ContentSafetyGuardrail";
     is_safe := fun _ =>
       Raises (NotImplementedError
                 "Child classes must implement the is_safe method") |}.
End ContentSafetyGuardrail.

(** [class PostprocessingGuardrail]: an object with a [postprocess] method. *)
Module PostprocessingGuardrail.
Record t (Frames : Type) := Build
  { class_name : string;
    postprocess : Frames -> outcome Frames }.
Arguments Build {Frames}.
Arguments class_name {Frames}.
Arguments postprocess {Frames}.

Definition base {Frames} : t Frames :=
  {| class_name := "PostprocessingGuardrail";
     postprocess := fun _ =>
       Raises (NotImplementedError
                 "Child classes must implement the postprocess method") |}.
End PostprocessingGuardrail.

Module GuardrailRunner.
Section Runner.
Context {Input Frames : Type}.

Abbreviation checker := (ContentSafetyGuardrail.t Input).
Abbreviation transformer := (PostprocessingGuardrail.t Frames).

(** The four attributes set by [__init__]. *)
Record t := Build
  { safety_models : option (list checker);
    generic_block_msg : string;
    generic_safe_msg : string;
    postprocessors : option (list transformer) }.

(** Effects a method of the runner can perform. *)
Inductive event :=
| Log (level : log_level) (msg : string)
| IsSafeCall (guardrail : checker) (input : Input)
| PostprocessCall (guardrail : transformer) (frames : Frames).

(** The state a method runs in: the receiver and the journal of effects,
    oldest first. *)
Record world := World { self : t; journal : list event }.

Abbreviation M := (Py.M world).

Definition emit (e : event) : M unit :=
  Py.modify (fun w => World (self w) (journal w ++ [e])).

Definition log (level : log_level) (msg : string) : M unit :=
  emit (Log level msg).

Definition get_self : M t := fun w => (w, Returns (self w)).

(** [guardrail.is_safe(input)]: journal the call, then return or raise as
    the checker does. *)
Definition call_is_safe (guardrail : checker) (input : Input)
  : M (bool * string) :=
  emit (IsSafeCall guardrail input) ;;
  Py.lift (ContentSafetyGuardrail.is_safe guardrail input).

Definition call_postprocess (guardrail : transformer) (frames : Frames)
  : M Frames :=
  emit (PostprocessCall guardrail frames) ;;
  Py.lift (PostprocessingGuardrail.postprocess guardrail frames).

(** [__init__]; an omitted argument ([None] here) takes its default. *)
Definition init (safety_models : option (list checker))
    (generic_block_msg generic_safe_msg : option string)
    (postprocessors : option (list transformer)) : t :=
  let generic_block_msg := default "" generic_block_msg in
  let generic_safe_msg := default "" generic_safe_msg in
  {| safety_models := safety_models;
     generic_block_msg := generic_block_msg;
     generic_safe_msg :=
       if str_truthy generic_safe_msg then generic_safe_msg
       else "Prompt is safe";
     postprocessors := postprocessors |}.

(** The message of a blocked input:
    [self.generic_block_msg if self.generic_block_msg
     else f"{guardrail_name} blocked input"]. *)
Definition block_msg (self : t) (guardrail_name : string) : string :=
  if str_truthy (generic_block_msg self) then generic_block_msg self
  else guardrail_name +:+ " blocked input".

(** The [for guardrail in self.safety_models] loop.  [Some r] is the
    early [return r] from inside the body, [None] is falling through. *)
Fixpoint safety_loop (models : list checker) (input : Input)
  : M (option (bool * string)) :=
  match models with
  | [] => Py.ret None
  | guardrail :: rest =>
      let* r := call_is_safe guardrail input in
      let '(is_safe, guardrail_name) := r in
      if negb is_safe then
        let* self := get_self in
        let msg := block_msg self guardrail_name in
        Py.ret (Some (false, msg))
      else safety_loop rest input
  end.

Definition run_safety_check (input : Input) : M (bool * string) :=
  let* self := get_self in
  if negb (list_truthy (safety_models self)) then
    log WARNING "No safety models found, returning safe" ;;
    let* self := get_self in
    Py.ret (true, generic_safe_msg self)
  else
    let* r := safety_loop (default [] (safety_models self)) input in
    match r with
    | Some res => Py.ret res
    | None =>
        let* self := get_self in
        Py.ret (true, generic_safe_msg self)
    end.

(** The [for guardrail in self.postprocessors] loop, threading the local
    variable [frames]. *)
Fixpoint postprocess_loop (guardrails : list transformer) (frames : Frames)
  : M Frames :=
  match guardrails with
  | [] => Py.ret frames
  | guardrail :: rest =>
      let* frames := call_postprocess guardrail frames in
      log DEBUG ("Postprocessed by "
                 +:+ upper (PostprocessingGuardrail.class_name guardrail)) ;;
      postprocess_loop rest frames
  end.

Definition postprocess (frames : Frames) : M Frames :=
  let* self := get_self in
  if negb (list_truthy (postprocessors self)) then
    log DEBUG "No postprocessors found, returning original frames" ;;
    Py.ret frames
  else
    postprocess_loop (default [] (postprocessors self)) frames.

End Runner.
End GuardrailRunner.

(** ** text2world.py *)

(** [str(i)] for a loop index. *)
Definition str_of_nat (i : nat) : string :=
  NilEmpty.string_of_uint (Nat.to_uint i).

(** [os.path.join(a, b)] of [posixpath], for two components. *)
Definition ends_with_sep (a : string) : bool :=
  match last (list_ascii_of_string a) with
  | Some c => Ascii.eqb c "/"
  | None => false
  end.

Definition starts_with_sep (b : string) : bool :=
  match b with
  | String c _ => Ascii.eqb c "/"
  | EmptyString => false
  end.

Definition path_join (a b : string) : string :=
  if starts_with_sep b then b
  else if negb (str_truthy a) || ends_with_sep a then a +:+ b
  else a +:+ "/" +:+ b.

(** A value found in a prompt entry: [None] or a [str]. *)
Inductive pyval := PyNone | PyStr (s : string).

(** Truth value of a [str | None] attribute. *)
Definition opt_truthy (v : option string) : bool :=
  match v with
  | Some s => str_truthy s
  | None => false
  end.

(** What an f-string prints for a [str | None] attribute. *)
Definition format_opt (v : option string) : string :=
  match v with
  | Some s => s
  | None => "None"
  end.

Module Text2World.
Section Demo.
(** Types the driver only passes around: Python floats, video arrays and
    the pipeline object. *)
Context {float Video Pipeline : Type}.

(** The attributes of [cfg] that [demo] reads. *)
Record Namespace := BuildNamespace
  { seed : Z;
    checkpoint_dir : string;
    diffusion_transformer_dir : string;
    prompt_upsampler_dir : string;
    disable_prompt_upsampler : bool;
    offload_diffusion_transformer : bool;
    offload_tokenizer : bool;
    offload_text_encoder_model : bool;
    offload_prompt_upsampler : bool;
    offload_guardrail_models : bool;
    guidance : float;
    num_steps : Z;
    height : Z;
    width : Z;
    fps : Z;
    num_video_frames : Z;
    batch_input_path : option string;
    prompt : option string;
    negative_prompt : option string;
    word_limit_to_skip_upsampler : Z;
    video_save_folder : string;
    video_save_name : string }.

(** Keyword arguments of the pipeline constructor. *)
Record PipelineArgs := BuildPipelineArgs
  { kw_inference_type : string;
    kw_checkpoint_dir : string;
    kw_checkpoint_name : string;
    kw_prompt_upsampler_dir : string;
    kw_enable_prompt_upsampler : bool;
    kw_offload_network : bool;
    kw_offload_tokenizer : bool;
    kw_offload_text_encoder_model : bool;
    kw_offload_prompt_upsampler : bool;
    kw_offload_guardrail_models : bool;
    kw_guidance : float;
    kw_num_steps : Z;
    kw_height : Z;
    kw_width : Z;
    kw_fps : Z;
    kw_num_video_frames : Z;
    kw_seed : Z }.

(** A prompt entry, as [read_prompts_from_file] yields them. *)
Abbreviation entry := (gmap string pyval).

(** The collaborators [demo] calls into.  They live outside the two files
    embedded here, so each is taken as given: a call returns or raises. *)
Record Externals := BuildExternals
  { validate_args : Namespace -> string -> outcome unit;
    DiffusionText2WorldGenerationPipeline : PipelineArgs -> outcome Pipeline;
    generate :
      Pipeline -> string -> option string -> Z ->
      outcome (option (Video * string));
    read_prompts_from_file : string -> outcome (list entry);
    save_video : Video -> Z -> Z -> Z -> Z -> string -> outcome unit;
    makedirs : string -> outcome unit;
    write_file : string -> list Byte.byte -> outcome unit }.

Inductive event :=
| SetRandomSeed (seed : Z)
| ValidateArgs (cfg : Namespace) (inference_type : string)
| NewPipeline (kwargs : PipelineArgs)
| Log (level : log_level) (msg : string)
| ReadPrompts (path : string)
| Makedirs (path : string)
| Generate (prompt : string) (negative_prompt : option string)
    (word_limit : Z)
| SaveVideo (video : Video) (fps H W video_save_quality : Z)
    (video_save_path : string)
| WriteFile (path : string) (data : list Byte.byte).

(** The state [demo] runs in: the module-level name [args], bound only by
    the [__main__] block, and the journal of effects, oldest first. *)
Record world := World { global_args : option Namespace; journal : list event }.

Abbreviation M := (Py.M world).

Variable ext : Externals.

Definition emit (e : event) : M unit :=
  Py.modify (fun w => World (global_args w) (journal w ++ [e])).

Definition log (level : log_level) (msg : string) : M unit :=
  emit (Log level msg).

(** Reading the global name [args]. *)
Definition load_global_args : M Namespace :=
  fun w =>
    match global_args w with
    | Some a => (w, Returns a)
    | None => (w, Raises (NameError "args"))
    end.

(** [input_dict.get("prompt", None)]. *)
Definition get_prompt (input_dict : entry) : pyval :=
  default PyNone (input_dict !! "prompt").

(** The prompt list of the single-prompt case, [[{"prompt": cfg.prompt}]]. *)
Definition single_prompt (cfg : Namespace) : list entry :=
  [ {[ "prompt" := match prompt cfg with
                   | Some s => PyStr s
                   | None => PyNone
                   end ]} ].

Definition pipeline_kwargs (cfg : Namespace) (inference_type : string)
  : PipelineArgs :=
  {| kw_inference_type := inference_type;
     kw_checkpoint_dir := checkpoint_dir cfg;
     kw_checkpoint_name := diffusion_transformer_dir cfg;
     kw_prompt_upsampler_dir := prompt_upsampler_dir cfg;
     kw_enable_prompt_upsampler := negb (disable_prompt_upsampler cfg);
     kw_offload_network := offload_diffusion_transformer cfg;
     kw_offload_tokenizer := offload_tokenizer cfg;
     kw_offload_text_encoder_model := offload_text_encoder_model cfg;
     kw_offload_prompt_upsampler := offload_prompt_upsampler cfg;
     kw_offload_guardrail_models := offload_guardrail_models cfg;
     kw_guidance := guidance cfg;
     kw_num_steps := num_steps cfg;
     kw_height := height cfg;
     kw_width := width cfg;
     kw_fps := fps cfg;
     kw_num_video_frames := num_video_frames cfg;
     kw_seed := seed cfg |}.

(** Where the two files of one entry go. *)
Definition save_paths (cfg : Namespace) (i : nat) : string * string :=
  if opt_truthy (batch_input_path cfg) then
    (path_join (video_save_folder cfg) (str_of_nat i +:+ ".mp4"),
     path_join (video_save_folder cfg) (str_of_nat i +:+ ".txt"))
  else
    (path_join (video_save_folder cfg) (video_save_name cfg +:+ ".mp4"),
     path_join (video_save_folder cfg) (video_save_name cfg +:+ ".txt")).

(** The body of the [for i, input_dict in enumerate(prompts)] loop; a
    [continue] ends the body early. *)
Definition demo_body (cfg : Namespace) (pipeline : Pipeline)
    (i : nat) (input_dict : entry) : M unit :=
  match get_prompt input_dict with
  | PyNone => log CRITICAL "Prompt is missing, skipping world generation."
  | PyStr current_prompt =>
      emit (Generate current_prompt (negative_prompt cfg)
              (word_limit_to_skip_upsampler cfg)) ;;
      let* generated_output :=
        Py.lift (generate ext pipeline current_prompt (negative_prompt cfg)
                   (word_limit_to_skip_upsampler cfg)) in
      match generated_output with
      | None => log CRITICAL "Guardrail blocked text2world generation."
      | Some (video, prompt) =>
          let '(video_save_path, prompt_save_path) := save_paths cfg i in
          emit (SaveVideo video (fps cfg) (height cfg) (width cfg) 5
                  video_save_path) ;;
          Py.lift (save_video ext video (fps cfg) (height cfg) (width cfg) 5
                     video_save_path) ;;
          emit (WriteFile prompt_save_path (list_byte_of_string prompt)) ;;
          Py.lift (write_file ext prompt_save_path
                     (list_byte_of_string prompt)) ;;
          log INFO ("Saved video to " +:+ video_save_path) ;;
          log INFO ("Saved prompt to " +:+ prompt_save_path)
      end
  end.

Fixpoint demo_loop (cfg : Namespace) (pipeline : Pipeline)
    (i : nat) (prompts : list entry) : M unit :=
  match prompts with
  | [] => Py.ret tt
  | input_dict :: rest =>
      demo_body cfg pipeline i input_dict ;;
      demo_loop cfg pipeline (S i) rest
  end.

Definition demo (cfg : Namespace) : M unit :=
  emit (SetRandomSeed (seed cfg)) ;;
  let inference_type := "text2world" in
  emit (ValidateArgs cfg inference_type) ;;
  Py.lift (validate_args ext cfg inference_type) ;;
  emit (NewPipeline (pipeline_kwargs cfg inference_type)) ;;
  let* pipeline :=
    Py.lift (DiffusionText2WorldGenerationPipeline ext
               (pipeline_kwargs cfg inference_type)) in
  let* prompts :=
    if opt_truthy (batch_input_path cfg) then
      let* args := load_global_args in
      log INFO ("Reading batch inputs from path: "
                +:+ format_opt (batch_input_path args)) ;;
      let path := default "" (batch_input_path cfg) in
      emit (ReadPrompts path) ;;
      Py.lift (read_prompts_from_file ext path)
    else Py.ret (single_prompt cfg) in
  emit (Makedirs (video_save_folder cfg)) ;;
  Py.lift (makedirs ext (video_save_folder cfg)) ;;
  demo_loop cfg pipeline 0 prompts.

(** The [__main__] block, from the parsed command line on: bind the global
    [args], then call [demo(args)]. *)
Definition main (parsed : Namespace) : M unit :=
  Py.modify (fun w => World (Some parsed) (journal w)) ;;
  let* args := load_global_args in
  demo args.

End Demo.
End Text2World.

(** ** Vocabulary of the specification *)

(** Case-insensitive occurrence of [needle] in [hay]. *)
Fixpoint occurs (needle hay : string) : bool :=
  String.prefix needle hay ||
  match hay with
  | EmptyString => false
  | String _ hay' => occurs needle hay'
  end.

Definition mentions (needle hay : string) : bool :=
  occurs (upper needle) (upper hay).

Section RunnerVocabulary.
Context {Input Frames : Type}.

Abbreviation checker := (ContentSafetyGuardrail.t Input).
Abbreviation transformer := (PostprocessingGuardrail.t Frames).
Abbreviation runner := (@GuardrailRunner.t Input Frames).
Abbreviation runner_event := (@GuardrailRunner.event Input Frames).

(** A checker reports safe, reports unsafe with a reason, or raises. *)
Definition reports_safe (x : Input) (c : checker) : Prop :=
  exists m, ContentSafetyGuardrail.is_safe c x = Returns (true, m).

Definition reports_unsafe (x : Input) (reason : string) (c : checker) : Prop :=
  ContentSafetyGuardrail.is_safe c x = Returns (false, reason).

(** The journal entries of invoking each of [cs], in order, on [x]. *)
Definition invocations (x : Input) (cs : list checker) : list runner_event :=
  (fun c => GuardrailRunner.IsSafeCall c x) <$> cs.

(** The checkers a journal shows as invoked, with their inputs. *)
Definition invoked (j : list runner_event) : list (checker * Input) :=
  omap (fun e =>
          match e with
          | GuardrailRunner.IsSafeCall c x => Some (c, x)
          | _ => None
          end) j.

(** Following the spec's words: the message of a block is the configured
    block message when that is non-empty, and otherwise combines the
    checker's identity (its class name) and its explanation. *)
Definition spec_resolved_message (r : runner) (c : checker)
    (explanation msg : string) : Prop :=
  if str_truthy (GuardrailRunner.generic_block_msg r)
  then msg = GuardrailRunner.generic_block_msg r
  else mentions (ContentSafetyGuardrail.class_name c) msg = true
       /\ mentions explanation msg = true.

(** Following the spec's words: left-to-right composition of the
    transformers' functions, the output of each fed to the next; a
    transformer that raises ends the chain with its exception. *)
Definition then_apply (acc : outcome Frames) (t : transformer)
  : outcome Frames :=
  match acc with
  | Returns frames => PostprocessingGuardrail.postprocess t frames
  | Raises e => Raises e
  end.

Definition left_to_right (ts : list transformer) (frames : Frames)
  : outcome Frames :=
  foldl then_apply (Returns frames) ts.

(** A transformer that computes the total function [f]. *)
Definition computes (t : transformer) (f : Frames -> Frames) : Prop :=
  forall frames, PostprocessingGuardrail.postprocess t frames = Returns (f frames).

End RunnerVocabulary.

(** Concrete runners used as examples: inputs are prompts, frames are
    lists of pixel values. *)
Module Examples.

Definition always_safe (name : string) : ContentSafetyGuardrail.t string :=
  ContentSafetyGuardrail.Build name (fun _ => Returns (true, "")).

Definition always_unsafe (name reason : string)
  : ContentSafetyGuardrail.t string :=
  ContentSafetyGuardrail.Build name (fun _ => Returns (false, reason)).

Definition broken (name : string) : ContentSafetyGuardrail.t string :=
  ContentSafetyGuardrail.Build name
    (ContentSafetyGuardrail.is_safe ContentSafetyGuardrail.base).

Definition A := always_safe "Blocklist".
Definition B := always_unsafe "Aegis" "R".
Definition C := always_safe "VideoFilter".

Definition double_brightness : PostprocessingGuardrail.t (list Z) :=
  PostprocessingGuardrail.Build "DoubleBrightness"
    (fun frames => Returns ((fun p => 2 * p)%Z <$> frames)).

Definition crop_to_2 : PostprocessingGuardrail.t (list Z) :=
  PostprocessingGuardrail.Build "Crop" (fun frames => Returns (take 2 frames)).

Definition failing_blur : PostprocessingGuardrail.t (list Z) :=
  PostprocessingGuardrail.Build "FaceBlur"
    (fun _ => Raises (PyExc "RuntimeError" "out of memory")).

(** checkers = [A(safe), B(unsafe, "R"), C(safe)], no block message. *)
Definition abc : @GuardrailRunner.t string (list Z) :=
  GuardrailRunner.init (Some [A; B; C]) None None
    (Some [double_brightness; crop_to_2]).

Definition abc_generic : @GuardrailRunner.t string (list Z) :=
  GuardrailRunner.init (Some [A; B; C]) (Some "Blocked.") (Some "ok") None.

Definition all_safe : @GuardrailRunner.t string (list Z) :=
  GuardrailRunner.init (Some [A; C]) None None None.

Definition unconfigured : @GuardrailRunner.t string (list Z) :=
  GuardrailRunner.init None None None None.

Definition with_broken : @GuardrailRunner.t string (list Z) :=
  GuardrailRunner.init (Some [A; broken "Stub"; B]) None None
    (Some [double_brightness; failing_blur; crop_to_2]).

End Examples.

Section DemoVocabulary.
Context {float Video Pipeline : Type}.

Abbreviation namespace := (@Text2World.Namespace float).
Abbreviation demo_event := (@Text2World.event float Video).
Abbreviation externals := (@Text2World.Externals float Video Pipeline).

(** What becomes of one prompt entry: its prompt is missing, the pipeline
    blocks it (a null result), a video is generated, or [generate] raises. *)
Inductive fate :=
| Missing
| Blocked
| Generated (video : Video) (prompt : string)
| Failed (e : exception).

Definition fate_of (ext : externals) (cfg : namespace) (pipeline : Pipeline)
    (input_dict : gmap string pyval) : fate :=
  match Text2World.get_prompt input_dict with
  | PyNone => Missing
  | PyStr current_prompt =>
      match Text2World.generate ext pipeline current_prompt
              (Text2World.negative_prompt cfg)
              (Text2World.word_limit_to_skip_upsampler cfg) with
      | Returns None => Blocked
      | Returns (Some (video, prompt)) => Generated video prompt
      | Raises e => Failed e
      end
  end.

Definition is_skipped (f : fate) : bool :=
  match f with
  | Missing | Blocked => true
  | Generated _ _ | Failed _ => false
  end.

(** The two output files named by the index [i] of an entry. *)
Definition video_path (cfg : namespace) (i : nat) : string :=
  path_join (Text2World.video_save_folder cfg) (str_of_nat i +:+ ".mp4").

Definition text_path (cfg : namespace) (i : nat) : string :=
  path_join (Text2World.video_save_folder cfg) (str_of_nat i +:+ ".txt").

(** Paths of the files a journal shows as written, in order. *)
Definition written (j : list demo_event) : list string :=
  omap (fun e =>
          match e with
          | Text2World.SaveVideo _ _ _ _ _ path => Some path
          | Text2World.WriteFile path _ => Some path
          | _ => None
          end) j.

(** Messages a journal shows as logged at level CRITICAL. *)
Definition criticals (j : list demo_event) : list string :=
  omap (fun e =>
          match e with
          | Text2World.Log CRITICAL msg => Some msg
          | _ => None
          end) j.

(** Paths a journal shows as passed to [read_prompts_from_file]. *)
Definition prompts_read (j : list demo_event) : list string :=
  omap (fun e =>
          match e with
          | Text2World.ReadPrompts path => Some path
          | _ => None
          end) j.

(** The journal entries of one pass through the loop body in batch mode,
    for an entry at index [i] whose fate is not [Failed]. *)
Definition entry_journal (cfg : namespace) (i : nat)
    (input_dict : gmap string pyval) (f : fate) : list demo_event :=
  let generate_call current_prompt :=
    Text2World.Generate current_prompt (Text2World.negative_prompt cfg)
      (Text2World.word_limit_to_skip_upsampler cfg) in
  match Text2World.get_prompt input_dict, f with
  | PyStr current_prompt, Blocked =>
      [generate_call current_prompt;
       Text2World.Log CRITICAL "Guardrail blocked text2world generation."]
  | PyStr current_prompt, Generated video prompt =>
      [generate_call current_prompt;
       Text2World.SaveVideo video (Text2World.fps cfg)
         (Text2World.height cfg) (Text2World.width cfg) 5 (video_path cfg i);
       Text2World.WriteFile (text_path cfg i) (list_byte_of_string prompt);
       Text2World.Log INFO ("Saved video to " +:+ video_path cfg i);
       Text2World.Log INFO ("Saved prompt to " +:+ text_path cfg i)]
  | _, _ =>
      [Text2World.Log CRITICAL "Prompt is missing, skipping world generation."]
  end.

(** The files written for an entry at index [i], by its fate. *)
Definition files_of (cfg : namespace) (i : nat) (f : fate) : list string :=
  match f with
  | Generated _ _ => [video_path cfg i; text_path cfg i]
  | Missing | Blocked | Failed _ => []
  end.

(** Journal and files of a whole batch whose first entry has index [i]. *)
Fixpoint batch_journal (ext : externals) (cfg : namespace)
    (pipeline : Pipeline) (i : nat) (prompts : list (gmap string pyval))
  : list demo_event :=
  match prompts with
  | [] => []
  | input_dict :: rest =>
      entry_journal cfg i input_dict (fate_of ext cfg pipeline input_dict)
      ++ batch_journal ext cfg pipeline (S i) rest
  end.

Fixpoint batch_files (ext : externals) (cfg : namespace)
    (pipeline : Pipeline) (i : nat) (prompts : list (gmap string pyval))
  : list string :=
  match prompts with
  | [] => []
  | input_dict :: rest =>
      files_of cfg i (fate_of ext cfg pipeline input_dict)
      ++ batch_files ext cfg pipeline (S i) rest
  end.

(** The journal entries of [demo] in batch mode before the loop starts. *)
Definition setup_journal (cfg args : namespace) (path : string)
  : list demo_event :=
  [Text2World.SetRandomSeed (Text2World.seed cfg);
   Text2World.ValidateArgs cfg "text2world";
   Text2World.NewPipeline (Text2World.pipeline_kwargs cfg "text2world");
   Text2World.Log INFO ("Reading batch inputs from path: "
                        +:+ format_opt (Text2World.batch_input_path args));
   Text2World.ReadPrompts path].

End DemoVocabulary.

(** A concrete driver run used as an example: videos are frame counts, the
    pipeline blocks the prompt "blocked", and the batch file holds three
    entries of which the second has no prompt. *)
Module DemoExamples.

Definition cfg : @Text2World.Namespace nat :=
  {| Text2World.seed := 42;
     Text2World.checkpoint_dir := "checkpoints";
     Text2World.diffusion_transformer_dir :=
       "Cosmos-1.0-Diffusion-7B-Text2World";
     Text2World.prompt_upsampler_dir :=
       "Cosmos-1.0-Prompt-Upsampler-12B-Text2World";
     Text2World.disable_prompt_upsampler := false;
     Text2World.offload_diffusion_transformer := false;
     Text2World.offload_tokenizer := false;
     Text2World.offload_text_encoder_model := false;
     Text2World.offload_prompt_upsampler := false;
     Text2World.offload_guardrail_models := false;
     Text2World.guidance := 7;
     Text2World.num_steps := 35;
     Text2World.height := 704;
     Text2World.width := 1280;
     Text2World.fps := 24;
     Text2World.num_video_frames := 121;
     Text2World.batch_input_path := Some "prompts.jsonl";
     Text2World.prompt := None;
     Text2World.negative_prompt := None;
     Text2World.word_limit_to_skip_upsampler := 250;
     Text2World.video_save_folder := "outputs";
     Text2World.video_save_name := "output" |}.

Definition three_prompts : list (gmap string pyval) :=
  [ {[ "prompt" := PyStr "a robot arm" ]};
    {[ "visual_input" := PyStr "clip.mp4" ]};
    {[ "prompt" := PyStr "a city street" ]} ].

Definition ext : @Text2World.Externals nat nat unit :=
  {| Text2World.validate_args := fun _ _ => Returns tt;
     Text2World.DiffusionText2WorldGenerationPipeline := fun _ => Returns tt;
     Text2World.generate := fun _ current_prompt _ _ =>
       if String.eqb current_prompt "blocked" then Returns None
       else Returns (Some (121, current_prompt));
     Text2World.read_prompts_from_file := fun _ => Returns three_prompts;
     Text2World.save_video := fun _ _ _ _ _ _ => Returns tt;
     Text2World.makedirs := fun _ => Returns tt;
     Text2World.write_file := fun _ _ => Returns tt |}.

End DemoExamples.

(** ** Further vocabulary: what a journal shows *)

Section RunnerJournal.
Context {Input Frames : Type}.

Abbreviation checker := (ContentSafetyGuardrail.t Input).
Abbreviation transformer := (PostprocessingGuardrail.t Frames).
Abbreviation runner := (@GuardrailRunner.t Input Frames).
Abbreviation runner_event := (@GuardrailRunner.event Input Frames).

(** The transformers a journal shows as invoked, with the frames each
    received. *)
Definition postprocessed (j : list runner_event)
  : list (transformer * Frames) :=
  omap (fun e =>
          match e with
          | GuardrailRunner.PostprocessCall t frames => Some (t, frames)
          | _ => None
          end) j.

(** The records a journal shows as logged. *)
Definition logged (j : list runner_event) : list (log_level * string) :=
  omap (fun e =>
          match e with
          | GuardrailRunner.Log level msg => Some (level, msg)
          | _ => None
          end) j.

(** The record [postprocess] logs once a transformer has returned. *)
Definition postprocessed_by (t : transformer) : log_level * string :=
  (DEBUG, "Postprocessed by " +:+ upper (PostprocessingGuardrail.class_name t)).

(** The runner [r] configured with another list of checkers. *)
Definition with_safety_models (r : runner) (cs : list checker) : runner :=
  {| GuardrailRunner.safety_models := Some cs;
     GuardrailRunner.generic_block_msg := GuardrailRunner.generic_block_msg r;
     GuardrailRunner.generic_safe_msg := GuardrailRunner.generic_safe_msg r;
     GuardrailRunner.postprocessors := GuardrailRunner.postprocessors r |}.

(** The journal entries of running the chain [ts] on [frames]: each call,
    followed by its record if it returned; a call that raises ends it. *)
Fixpoint chain_journal (ts : list transformer) (frames : Frames)
  : list runner_event :=
  match ts with
  | [] => []
  | t :: rest =>
      GuardrailRunner.PostprocessCall t frames ::
      match PostprocessingGuardrail.postprocess t frames with
      | Returns frames' =>
          GuardrailRunner.Log DEBUG (postprocessed_by t).2
          :: chain_journal rest frames'
      | Raises _ => []
      end
  end.

End RunnerJournal.

Section DemoJournal.
Context {float Video : Type}.

(** The calls to [generate] a journal shows: prompt, negative prompt and
    word limit of each. *)
Definition generate_calls (j : list (@Text2World.event float Video))
  : list (string * option string * Z) :=
  omap (fun e =>
          match e with
          | Text2World.Generate current_prompt negative_prompt word_limit =>
              Some (current_prompt, negative_prompt, word_limit)
          | _ => None
          end) j.

(** The text files a journal shows as written, with their contents. *)
Definition texts_written (j : list (@Text2World.event float Video))
  : list (string * list Byte.byte) :=
  omap (fun e =>
          match e with
          | Text2World.WriteFile path data => Some (path, data)
          | _ => None
          end) j.

(** The folders a journal shows as created. *)
Definition folders_made (j : list (@Text2World.event float Video))
  : list string :=
  omap (fun e =>
          match e with
          | Text2World.Makedirs path => Some path
          | _ => None
          end) j.

(** The prompts of the entries that have one, in batch order. *)
Definition prompts_present (prompts : list (gmap string pyval))
  : list string :=
  omap (fun input_dict =>
          match Text2World.get_prompt input_dict with
          | PyStr current_prompt => Some current_prompt
          | PyNone => None
          end) prompts.

End DemoJournal.

Section DemoReadiness.
Context {float Video Pipeline : Type}.

(** The set-up of [demo] goes through: the arguments validate, the
    pipeline is built and the output folder can be created. *)
Definition set_up (ext : @Text2World.Externals float Video Pipeline)
    (cfg : @Text2World.Namespace float) (pipeline : Pipeline) : Prop :=
  Text2World.validate_args ext cfg "text2world" = Returns tt /\
  Text2World.DiffusionText2WorldGenerationPipeline ext
    (Text2World.pipeline_kwargs cfg "text2world") = Returns pipeline /\
  Text2World.makedirs ext (Text2World.video_save_folder cfg) = Returns tt.

(** The entries [prompts] can be processed to the end: [generate] raises
    on none of them, and the files of those it generates can be written
    under the index they have when the first entry has index [i]. *)
Definition processable (ext : @Text2World.Externals float Video Pipeline)
    (cfg : @Text2World.Namespace float) (pipeline : Pipeline)
    (i : nat) (prompts : list (gmap string pyval)) : Prop :=
  (forall d e, d ∈ prompts -> fate_of ext cfg pipeline d <> Failed e) /\
  (forall k d video prompt,
     prompts !! k = Some d ->
     fate_of ext cfg pipeline d = Generated video prompt ->
     Text2World.save_video ext video (Text2World.fps cfg)
       (Text2World.height cfg) (Text2World.width cfg) 5
       (video_path cfg (i + k)) = Returns tt /\
     Text2World.write_file ext (text_path cfg (i + k))
       (list_byte_of_string prompt) = Returns tt).

(** A batch run is ready: batch mode is on, the set-up goes through and
    the batch file at [path] yields the processable entries [prompts]. *)
Definition batch_ready (ext : @Text2World.Externals float Video Pipeline)
    (cfg : @Text2World.Namespace float) (pipeline : Pipeline)
    (path : string) (prompts : list (gmap string pyval)) : Prop :=
  Text2World.batch_input_path cfg = Some path /\ str_truthy path = true /\
  set_up ext cfg pipeline /\
  Text2World.read_prompts_from_file ext path = Returns prompts /\
  processable ext cfg pipeline 0 prompts.

(** The journal entries of [demo] in single-prompt mode before the loop. *)
Definition single_setup_journal (cfg : @Text2World.Namespace float)
  : list (@Text2World.event float Video) :=
  [Text2World.SetRandomSeed (Text2World.seed cfg);
   Text2World.ValidateArgs cfg "text2world";
   Text2World.NewPipeline (Text2World.pipeline_kwargs cfg "text2world");
   Text2World.Makedirs (Text2World.video_save_folder cfg)].

End DemoReadiness.

(** Further example runs of the driver: single-prompt configurations, and
    a pipeline whose [generate] fails on one prompt. *)
Module DemoFurtherExamples.

(** [DemoExamples.cfg] without a batch file, with the given [--prompt]. *)
Definition single (p : option string) : @Text2World.Namespace nat :=
  let c := DemoExamples.cfg in
  {| Text2World.seed := Text2World.seed c;
     Text2World.checkpoint_dir := Text2World.checkpoint_dir c;
     Text2World.diffusion_transformer_dir :=
       Text2World.diffusion_transformer_dir c;
     Text2World.prompt_upsampler_dir := Text2World.prompt_upsampler_dir c;
     Text2World.disable_prompt_upsampler :=
       Text2World.disable_prompt_upsampler c;
     Text2World.offload_diffusion_transformer :=
       Text2World.offload_diffusion_transformer c;
     Text2World.offload_tokenizer := Text2World.offload_tokenizer c;
     Text2World.offload_text_encoder_model :=
       Text2World.offload_text_encoder_model c;
     Text2World.offload_prompt_upsampler :=
       Text2World.offload_prompt_upsampler c;
     Text2World.offload_guardrail_models :=
       Text2World.offload_guardrail_models c;
     Text2World.guidance := Text2World.guidance c;
     Text2World.num_steps := Text2World.num_steps c;
     Text2World.height := Text2World.height c;
     Text2World.width := Text2World.width c;
     Text2World.fps := Text2World.fps c;
     Text2World.num_video_frames := Text2World.num_video_frames c;
     Text2World.batch_input_path := None;
     Text2World.prompt := p;
     Text2World.negative_prompt := Text2World.negative_prompt c;
     Text2World.word_limit_to_skip_upsampler :=
       Text2World.word_limit_to_skip_upsampler c;
     Text2World.video_save_folder := Text2World.video_save_folder c;
     Text2World.video_save_name := Text2World.video_save_name c |}.

Definition crashing_prompts : list (gmap string pyval) :=
  [ {[ "prompt" := PyStr "a robot arm" ]};
    {[ "prompt" := PyStr "crash" ]};
    {[ "prompt" := PyStr "a city street" ]} ].

(** Like [DemoExamples.ext], but [generate] upsamples its prompt, raises
    on the prompt "crash", and the batch file holds [crashing_prompts]. *)
Definition ext : @Text2World.Externals nat nat unit :=
  {| Text2World.validate_args := fun _ _ => Returns tt;
     Text2World.DiffusionText2WorldGenerationPipeline := fun _ => Returns tt;
     Text2World.generate := fun _ current_prompt _ _ =>
       if String.eqb current_prompt "crash"
       then Raises (PyExc "RuntimeError" "CUDA out of memory")
       else Returns (Some (121, current_prompt +:+ ", cinematic"));
     Text2World.read_prompts_from_file := fun _ => Returns crashing_prompts;
     Text2World.save_video := fun _ _ _ _ _ _ => Returns tt;
     Text2World.makedirs := fun _ => Returns tt;
     Text2World.write_file := fun _ _ => Returns tt |}.

End DemoFurtherExamples.

(** ** Vocabulary for reasons and for upper case *)

Section Reasons.
Context {Input : Type}.

(** Following the spec's words: a reason is derived from a checker when it
    carries the checker's explanation or the checker's identity. *)
Definition spec_reason_derived (c : ContentSafetyGuardrail.t Input)
    (explanation msg : string) : Prop :=
  mentions explanation msg = true \/
  mentions (ContentSafetyGuardrail.class_name c) msg = true.

End Reasons.

(** A lower-case ASCII letter. *)
Definition is_lower (c : ascii) : bool :=
  let n := nat_of_ascii c in (97 <=? n)%nat && (n <=? 122)%nat.

(** Text made of ASCII characters only, as class names usually are. *)
Definition is_ascii_text (s : string) : bool :=
  forallb (fun c => (nat_of_ascii c <? 128)%nat) (list_ascii_of_string s).

(** Following the documentation of [str.upper], for ASCII text: [c'] is
    what [c] becomes, the capital of a lower-case letter (32 code points
    below it) and the character itself otherwise. *)
Definition capital_of (c c' : ascii) : bool :=
  if is_lower c then (nat_of_ascii c =? nat_of_ascii c' + 32)%nat
  else Ascii.eqb c' c.

(** ** Properties of the guardrail runner *)

Section RunnerProperties.
Context {Input Frames : Type}.
Implicit Types (r : @GuardrailRunner.t Input Frames) (x : Input)
  (j : list (@GuardrailRunner.event Input Frames))
  (cs : list (ContentSafetyGuardrail.t Input))
  (ts : list (PostprocessingGuardrail.t Frames)).

Import GuardrailRunner.

(** Unfolding one checker call. *)
Lemma call_is_safe_eq r j c x :
  call_is_safe c x (World r j) =
  (World r (j ++ [IsSafeCall c x]), ContentSafetyGuardrail.is_safe c x).
Proof. reflexivity. Qed.

Lemma safety_loop_cons r j c cs x :
  safety_loop (c :: cs) x (World r j) =
  match ContentSafetyGuardrail.is_safe c x with
  | Returns (true, _) => safety_loop cs x (World r (j ++ [IsSafeCall c x]))
  | Returns (false, name) =>
      (World r (j ++ [IsSafeCall c x]), Returns (Some (false, block_msg r name)))
  | Raises e => (World r (j ++ [IsSafeCall c x]), Raises e)
  end.
Proof.
  cbn [safety_loop]. unfold Py.bind at 1. rewrite call_is_safe_eq.
  destruct (ContentSafetyGuardrail.is_safe c x) as [[[] name]|e]; reflexivity.
Qed.

(** The loop over a prefix of checkers that all report safe only journals
    their invocations and moves on to the rest. *)
Lemma safety_loop_safe_prefix r x cs1 cs2 j :
  Forall (reports_safe x) cs1 ->
  safety_loop (cs1 ++ cs2) x (World r j) =
  safety_loop cs2 x (World r (j ++ invocations x cs1)).
Proof.
  intros Hsafe. revert j.
  induction Hsafe as [|c cs1 [m Hm] _ IH]; intros j.
  - cbn. by rewrite app_nil_r.
  - cbn [app]. rewrite safety_loop_cons, Hm, IH.
    unfold invocations. cbn [fmap list_fmap]. by rewrite <- app_assoc.
Qed.

Lemma split_at {A} (l : list A) k a :
  l !! k = Some a -> l = take k l ++ a :: drop (S k) l.
Proof. intros H. by rewrite <- (take_drop_middle l k a) at 1. Qed.

Lemma invocations_snoc x cs c :
  invocations x (cs ++ [c])
  = invocations x cs ++ [@IsSafeCall Input Frames c x].
Proof. unfold invocations. by rewrite fmap_app. Qed.

Lemma take_S_snoc {A} (l : list A) k a :
  l !! k = Some a -> take (S k) l = take k l ++ [a].
Proof. intros H. by erewrite take_S_r. Qed.

(** The three ways the loop can end. *)
Lemma safety_loop_unsafe r x cs k c reason j :
  cs !! k = Some c ->
  Forall (reports_safe x) (take k cs) ->
  reports_unsafe x reason c ->
  safety_loop cs x (World r j) =
  (World r (j ++ invocations x (take (S k) cs)),
   Returns (Some (false, block_msg r reason))).
Proof.
  intros Hk Hsafe Hc. rewrite (split_at cs k c Hk) at 1.
  rewrite safety_loop_safe_prefix by done.
  rewrite safety_loop_cons, Hc.
  by rewrite (take_S_snoc _ _ _ Hk), invocations_snoc, app_assoc.
Qed.

Lemma safety_loop_raises r x cs k c e j :
  cs !! k = Some c ->
  Forall (reports_safe x) (take k cs) ->
  ContentSafetyGuardrail.is_safe c x = Raises e ->
  safety_loop cs x (World r j) =
  (World r (j ++ invocations x (take (S k) cs)), Raises e).
Proof.
  intros Hk Hsafe Hc. rewrite (split_at cs k c Hk) at 1.
  rewrite safety_loop_safe_prefix by done.
  rewrite safety_loop_cons, Hc.
  by rewrite (take_S_snoc _ _ _ Hk), invocations_snoc, app_assoc.
Qed.

Lemma safety_loop_all_safe r x cs j :
  Forall (reports_safe x) cs ->
  safety_loop cs x (World r j) = (World r (j ++ invocations x cs), Returns None).
Proof.
  intros Hsafe. rewrite <- (app_nil_r cs) at 1.
  by rewrite safety_loop_safe_prefix.
Qed.

(** [run_safety_check] on a configured runner is the loop followed by the
    final [return]. *)
Lemma run_safety_check_configured r x c cs j :
  safety_models r = Some (c :: cs) ->
  run_safety_check x (World r j) =
  match safety_loop (c :: cs) x (World r j) with
  | (w, Returns (Some res)) => (w, Returns res)
  | (w, Returns None) => (w, Returns (true, generic_safe_msg (self w)))
  | (w, Raises e) => (w, Raises e)
  end.
Proof.
  intros Hm. unfold run_safety_check, Py.bind at 1, get_self.
  cbn [self]. rewrite Hm. cbn [list_truthy negb default from_option id].
  unfold Py.bind at 1.
  destruct (safety_loop (c :: cs) x (World r j)) as [w [[res|]|e]]; reflexivity.
Qed.

Lemma run_safety_check_unconfigured r x j :
  list_truthy (safety_models r) = false ->
  run_safety_check x (World r j) =
  (World r (j ++ [Log WARNING "No safety models found, returning safe"]),
   Returns (true, generic_safe_msg r)).
Proof.
  intros Hm. unfold run_safety_check, Py.bind at 1, get_self.
  cbn [self]. rewrite Hm. reflexivity.
Qed.

Lemma lookup_nonempty {A} (l : list A) k a :
  l !! k = Some a -> exists b l', l = b :: l'.
Proof. destruct l; [done | eauto]. Qed.

(** Whatever the journal holds when the loop starts, the loop appends the
    same entries to it, ends the same way and leaves [self] alone. *)
Lemma safety_loop_frame r x cs j1 j2 :
  exists j' o,
    safety_loop cs x (World r j1) = (World r (j1 ++ j'), o) /\
    safety_loop cs x (World r j2) = (World r (j2 ++ j'), o).
Proof.
  revert j1 j2. induction cs as [|c cs IH]; intros j1 j2.
  - exists [], (Returns None). cbn. by rewrite !app_nil_r.
  - rewrite !safety_loop_cons.
    destruct (ContentSafetyGuardrail.is_safe c x) as [[[] name]|e].
    + destruct (IH (j1 ++ [IsSafeCall c x]) (j2 ++ [IsSafeCall c x]))
        as (j' & o & H1 & H2).
      exists (IsSafeCall c x :: j'), o.
      rewrite H1, H2, <- !app_assoc. done.
    + by eexists [_], _.
    + by eexists [_], _.
Qed.

Lemma run_safety_check_frame r x j1 j2 :
  exists j' o,
    run_safety_check x (World r j1) = (World r (j1 ++ j'), o) /\
    run_safety_check x (World r j2) = (World r (j2 ++ j'), o).
Proof.
  destruct (safety_models r) as [[|c cs]|] eqn:Hm.
  1,3: rewrite !run_safety_check_unconfigured by (by rewrite Hm);
       by eexists [_], _.
  rewrite !(run_safety_check_configured r x c cs) by done.
  destruct (safety_loop_frame r x (c :: cs) j1 j2) as (j' & o & -> & ->).
  destruct o as [[res|]|e]; by eexists j', _.
Qed.

(** The loop returns early only to block. *)
Lemma safety_loop_early_is_block r x cs j w res :
  safety_loop cs x (World r j) = (w, Returns (Some res)) -> res.1 = false.
Proof.
  revert j. induction cs as [|c cs IH]; intros j; [done|].
  rewrite safety_loop_cons.
  destruct (ContentSafetyGuardrail.is_safe c x) as [[[] name]|e]; eauto.
  - by intros [= _ <-].
  - done.
Qed.

(** The loop falls through only when every checker reported safe. *)
Lemma safety_loop_through_all_safe r x cs j w :
  safety_loop cs x (World r j) = (w, Returns None) ->
  Forall (reports_safe x) cs.
Proof.
  revert j. induction cs as [|c cs IH]; intros j; [by constructor|].
  rewrite safety_loop_cons.
  destruct (ContentSafetyGuardrail.is_safe c x) as [[[] name]|e] eqn:Hc;
    [|done..].
  intros H. constructor; [by exists name | eauto].
Qed.

Lemma invoked_invocations x cs :
  invoked (invocations (Frames:=Frames) x cs) = (fun c => (c, x)) <$> cs.
Proof. induction cs as [|c cs IH]; [done|]. cbn. by f_equal. Qed.

(** *** The postprocessing loop *)

Lemma postprocess_loop_cons r j t ts frames :
  postprocess_loop (t :: ts) frames (World r j) =
  match PostprocessingGuardrail.postprocess t frames with
  | Returns frames' =>
      postprocess_loop ts frames'
        (World r (j ++ [PostprocessCall t frames;
                        Log DEBUG ("Postprocessed by " +:+
                          upper (PostprocessingGuardrail.class_name t))]))
  | Raises e => (World r (j ++ [PostprocessCall t frames]), Raises e)
  end.
Proof.
  cbn [postprocess_loop]. unfold Py.bind at 1.
  unfold call_postprocess, Py.bind at 1. cbn.
  destruct (PostprocessingGuardrail.postprocess t frames); [|done].
  unfold Py.bind. cbn. by rewrite <- app_assoc.
Qed.

Lemma left_to_right_raises ts e :
  foldl (then_apply (Frames:=Frames)) (Raises e) ts = Raises e.
Proof. induction ts; [done|]. by cbn. Qed.

Lemma left_to_right_cons t ts frames :
  left_to_right (t :: ts) frames =
  match PostprocessingGuardrail.postprocess t frames with
  | Returns frames' => left_to_right ts frames'
  | Raises e => Raises e
  end.
Proof.
  unfold left_to_right. cbn.
  destruct (PostprocessingGuardrail.postprocess t frames); [done|].
  apply left_to_right_raises.
Qed.

Lemma left_to_right_app ts1 ts2 frames :
  left_to_right (ts1 ++ ts2) frames =
  match left_to_right ts1 frames with
  | Returns mid => left_to_right ts2 mid
  | Raises e => Raises e
  end.
Proof.
  unfold left_to_right. rewrite foldl_app.
  destruct (foldl then_apply (Returns frames) ts1); [done|].
  apply left_to_right_raises.
Qed.

Lemma postprocess_loop_outcome r ts frames j :
  exists j',
    postprocess_loop ts frames (World r j) =
    (World r (j ++ j'), left_to_right ts frames).
Proof.
  revert frames j. induction ts as [|t ts IH]; intros frames j.
  - exists []. cbn. by rewrite app_nil_r.
  - rewrite postprocess_loop_cons, left_to_right_cons.
    destruct (PostprocessingGuardrail.postprocess t frames) as [frames'|e].
    + destruct (IH frames' (j ++ [PostprocessCall t frames;
                  Log DEBUG ("Postprocessed by " +:+
                    upper (PostprocessingGuardrail.class_name t))]))
        as [j' ->].
      eexists. by rewrite <- app_assoc.
    + by eexists.
Qed.

Lemma postprocess_outcome r frames j :
  exists j',
    postprocess frames (World r j) =
    (World r (j ++ j'), left_to_right (default [] (postprocessors r)) frames).
Proof.
  unfold postprocess, Py.bind at 1, get_self. cbn [self].
  destruct (postprocessors r) as [[|t ts]|] eqn:Hp; cbn [list_truthy negb].
  1,3: by eexists [_].
  apply postprocess_loop_outcome.
Qed.

(** A chain of total transformers computes the composition of their
    functions. *)
Lemma left_to_right_total ts (fs : list (Frames -> Frames)) frames :
  Forall2 computes ts fs ->
  left_to_right ts frames = Returns (foldl (fun acc f => f acc) frames fs).
Proof.
  intros H. revert frames.
  induction H as [|t f ts fs Hf _ IH]; intros frames; [done|].
  rewrite left_to_right_cons, Hf. cbn. apply IH.
Qed.

(** *** What the runner guarantees *)

Lemma upper_append s t : upper (s +:+ t) = upper s +:+ upper t.
Proof.
  induction s as [|c s IH]; [done|].
  change (String c s +:+ t) with (String c (s +:+ t)).
  cbn [upper]. by rewrite IH.
Qed.

Lemma prefix_of_append s t : String.prefix s (s +:+ t) = true.
Proof.
  induction s as [|c s IH]; [by destruct t|].
  change (String c s +:+ t) with (String c (s +:+ t)).
  cbn [String.prefix]. by destruct (ascii_dec c c).
Qed.

(** A message that starts with a text mentions it. *)
Lemma mentions_own_prefix s t : mentions s (s +:+ t) = true.
Proof.
  unfold mentions. rewrite upper_append.
  pose proof (prefix_of_append (upper s) (upper t)) as H.
  destruct (upper s +:+ upper t); cbn [occurs]; by rewrite H.
Qed.

(** C1, as amended.  When the checker at index [k] is the first to report
    unsafe (every checker before it reports safe), [run_safety_check]
    returns [False], and the journal grows by the invocations of the
    checkers up to and including index [k], in order, each on the same
    input: no later checker is invoked.  The reason returned is the
    configured block message when that is non-empty; only when none is
    configured is it derived from that checker, being the string the checker
    returned followed by " blocked input". *)
Theorem first_unsafe_checker_decides r x j cs k c reason :
  safety_models r = Some cs ->
  cs !! k = Some c ->
  Forall (reports_safe x) (take k cs) ->
  reports_unsafe x reason c ->
  exists msg,
    run_safety_check x (World r j) =
    (World r (j ++ invocations x (take (S k) cs)), Returns (false, msg)) /\
    msg = (if str_truthy (generic_block_msg r) then generic_block_msg r
           else reason +:+ " blocked input") /\
    (str_truthy (generic_block_msg r) = false ->
     spec_reason_derived c reason msg).
Proof.
  intros Hm Hk Hsafe Hc.
  destruct (lookup_nonempty cs k c Hk) as (c0 & cs' & ->).
  rewrite (run_safety_check_configured r x c0 cs') by done.
  rewrite (safety_loop_unsafe r x _ k c reason) by done.
  unfold block_msg. eexists. split_and!; [done..|].
  intros ->. left. apply mentions_own_prefix.
Qed.

(** C3.  With no checker list, or an empty one, [run_safety_check] logs a
    warning and returns [True] with the safe message, whatever the input. *)
Theorem unconfigured_runner_fails_open r x j :
  safety_models r = None \/ safety_models r = Some [] ->
  run_safety_check x (World r j) =
  (World r (j ++ [Log WARNING "No safety models found, returning safe"]),
   Returns (true, generic_safe_msg r)).
Proof.
  intros Hm. apply run_safety_check_unconfigured.
  by destruct Hm as [-> | ->].
Qed.

(** C4.  When every configured checker reports safe on the input,
    [run_safety_check] returns [True] with the safe message, and the
    checkers invoked are exactly the configured ones, in order, each on
    that same input. *)
Theorem all_safe_passes r x j cs :
  safety_models r = Some cs ->
  Forall (reports_safe x) cs ->
  exists j',
    run_safety_check x (World r j) =
    (World r (j ++ j'), Returns (true, generic_safe_msg r)) /\
    invoked j' = (fun c => (c, x)) <$> cs.
Proof.
  intros Hm Hsafe. destruct cs as [|c cs].
  - eexists. by rewrite run_safety_check_unconfigured by (by rewrite Hm).
  - rewrite (run_safety_check_configured r x c cs) by done.
    rewrite safety_loop_all_safe by done.
    eexists. split; [done|]. apply invoked_invocations.
Qed.

(** C5.  [postprocess] returns what the left-to-right chain of the
    configured transformers returns; for transformers computing total
    functions that is the composition of these functions in configured
    order; with no transformer list, or an empty one, the frames come back
    unchanged. *)
Theorem postprocess_is_composition r frames j :
  (postprocess frames (World r j)).2 =
    left_to_right (default [] (postprocessors r)) frames /\
  (forall ts fs,
     postprocessors r = Some ts -> Forall2 computes ts fs ->
     (postprocess frames (World r j)).2 =
       Returns (foldl (fun acc f => f acc) frames fs)) /\
  (postprocessors r = None \/ postprocessors r = Some [] ->
   (postprocess frames (World r j)).2 = Returns frames).
Proof.
  destruct (postprocess_outcome r frames j) as [j' ->]. cbn [snd].
  split_and!; [done| |].
  - intros ts fs -> H. by apply left_to_right_total.
  - by intros [-> | ->].
Qed.

(** C6.  An exception raised by the first checker that does not report
    safe, or by a transformer in the chain, comes out of the runner's
    method unchanged, and no later checker is invoked; and whenever
    [run_safety_check] returns [True], every configured checker has
    returned a safe verdict, so a raising checker is never passed off as
    safe. *)
Theorem errors_propagate r :
  (forall x j cs k c e,
     safety_models r = Some cs ->
     cs !! k = Some c ->
     Forall (reports_safe x) (take k cs) ->
     ContentSafetyGuardrail.is_safe c x = Raises e ->
     run_safety_check x (World r j) =
     (World r (j ++ invocations x (take (S k) cs)), Raises e)) /\
  (forall frames j ts k t mid e,
     postprocessors r = Some ts ->
     ts !! k = Some t ->
     left_to_right (take k ts) frames = Returns mid ->
     PostprocessingGuardrail.postprocess t mid = Raises e ->
     (postprocess frames (World r j)).2 = Raises e) /\
  (forall x j cs w msg,
     safety_models r = Some cs ->
     run_safety_check x (World r j) = (w, Returns (true, msg)) ->
     Forall (reports_safe x) cs).
Proof.
  split_and!.
  - intros x j cs k c e Hm Hk Hsafe Hc.
    destruct (lookup_nonempty cs k c Hk) as (c0 & cs' & ->).
    rewrite (run_safety_check_configured r x c0 cs') by done.
    by rewrite (safety_loop_raises r x _ k c e).
  - intros frames j ts k t mid e Hp Hk Hmid Ht.
    destruct (postprocess_outcome r frames j) as [j' ->]. cbn [snd].
    rewrite Hp. cbn [default from_option id].
    rewrite (split_at ts k t Hk), left_to_right_app, Hmid.
    by rewrite left_to_right_cons, Ht.
  - intros x j cs w msg Hm Hrun. destruct cs as [|c cs]; [by constructor|].
    rewrite (run_safety_check_configured r x c cs) in Hrun by done.
    destruct (safety_loop (c :: cs) x (World r j)) as [w' [[res|]|e]] eqn:Hl.
    + apply safety_loop_early_is_block in Hl. by simplify_eq.
    + by eapply safety_loop_through_all_safe.
    + done.
Qed.

(** C7.  Both methods leave the runner's four attributes as they were, and
    what they return does not depend on anything but the input and the
    runner: the same call in another journal returns the same. *)
Theorem runner_calls_are_pure r x frames j1 j2 :
  self (run_safety_check x (World r j1)).1 = r /\
  self (postprocess frames (World r j1)).1 = r /\
  (run_safety_check x (World r j1)).2 = (run_safety_check x (World r j2)).2 /\
  (postprocess frames (World r j1)).2 = (postprocess frames (World r j2)).2.
Proof.
  destruct (run_safety_check_frame r x j1 j2) as (j' & o & -> & ->).
  destruct (postprocess_outcome r frames j1) as [j1' ->].
  destruct (postprocess_outcome r frames j2) as [j2' ->].
  done.
Qed.

(** C9.  A freshly built runner has a non-empty safe message: an omitted
    or empty [generic_safe_msg] becomes "Prompt is safe", any other is
    kept; neither method changes it afterwards; and an omitted or empty
    [generic_block_msg] stays empty. *)
Theorem safe_message_never_empty sm b s pp :
  let r := init sm b s pp in
  generic_safe_msg r <> "" /\
  (s = None \/ s = Some "" -> generic_safe_msg r = "Prompt is safe") /\
  (forall msg, s = Some msg -> msg <> "" -> generic_safe_msg r = msg) /\
  (forall (x : Input) j,
     generic_safe_msg (self (run_safety_check x (World r j)).1)
     = generic_safe_msg r) /\
  (forall (frames : Frames) j,
     generic_safe_msg (self (postprocess frames (World r j)).1)
     = generic_safe_msg r) /\
  (b = None \/ b = Some "" -> generic_block_msg r = "").
Proof.
  intros r. split_and!.
  - subst r. cbn. by destruct (default "" s).
  - by intros [-> | ->].
  - intros msg -> Hne. subst r. cbn. by destruct msg.
  - intros x j.
    by destruct (run_safety_check_frame r x j j) as (j' & o & -> & _).
  - intros frames j. by destruct (postprocess_outcome r frames j) as [j' ->].
  - by intros [-> | ->].
Qed.

End RunnerProperties.

(** *** The runner on the example configurations *)

Section RunnerExamples.
Import GuardrailRunner Examples.

(** checkers = [A(safe), B(unsafe, "R"), C(safe)]: B decides, C is never
    invoked. *)
Lemma first_unsafe_checker_decides_witness :
  exists msg,
    run_safety_check "a prompt" (World abc []) =
    (World abc [IsSafeCall A "a prompt"; IsSafeCall B "a prompt"],
     Returns (false, msg)) /\
    msg = "R blocked input" /\
    (str_truthy (generic_block_msg abc) = false ->
     spec_reason_derived B "R" msg).
Proof.
  apply (first_unsafe_checker_decides abc "a prompt" [] [A; B; C] 1 B "R").
  - reflexivity.
  - reflexivity.
  - repeat constructor. exists "". reflexivity.
  - reflexivity.
Defined.

(** C1 as stated fails once a block message is configured: B blocks with
    the explanation "R", and the reason returned is "Blocked.", which
    carries neither B's explanation nor B's class. *)
Lemma generic_block_message_hides_the_checker :
  run_safety_check "a prompt" (World abc_generic []) =
    (World abc_generic [IsSafeCall A "a prompt"; IsSafeCall B "a prompt"],
     Returns (false, "Blocked.")) /\
  reports_unsafe "a prompt" "R" B /\
  ~ spec_reason_derived B "R" "Blocked.".
Proof.
  split_and!; [reflexivity..|].
  intros [H | H]; discriminate H.
Qed.

(** C2.  The claim fails on the example with no block message configured:
    B, of class [Aegis], blocks with the explanation "R", and the message
    returned is "R blocked input".  The checker's explanation stands where
    the guardrail's name was meant, and the class is not named. *)
Lemma block_message_omits_class_name :
  (run_safety_check "a prompt" (World abc [])).2 =
    Returns (false, "R blocked input") /\
  reports_unsafe "a prompt" "R" B /\
  ~ spec_resolved_message abc B "R" "R blocked input".
Proof.
  split_and!; [reflexivity..|].
  unfold spec_resolved_message. cbn. intros [H _]. discriminate H.
Qed.

Lemma unconfigured_runner_fails_open_witness :
  run_safety_check "a prompt" (World unconfigured []) =
  (World unconfigured [Log WARNING "No safety models found, returning safe"],
   Returns (true, "Prompt is safe")).
Proof.
  apply (unconfigured_runner_fails_open unconfigured "a prompt" []).
  left. reflexivity.
Defined.

Lemma all_safe_passes_witness :
  exists j',
    run_safety_check "a prompt" (World all_safe []) =
    (World all_safe ([] ++ j'), Returns (true, "Prompt is safe")) /\
    invoked j' = [(A, "a prompt"); (C, "a prompt")].
Proof.
  apply (all_safe_passes all_safe "a prompt" [] [A; C]).
  - reflexivity.
  - repeat constructor; exists ""; reflexivity.
Defined.

(** Doubling the brightness, then cropping, in that order. *)
Lemma postprocess_is_composition_witness :
  (postprocess [1; 2; 3]%Z (World abc [])).2 = Returns [2; 4]%Z.
Proof.
  change [2; 4]%Z
    with (foldl (fun acc (f : list Z -> list Z) => f acc) [1; 2; 3]%Z
            [fmap (fun p => 2 * p)%Z; take 2]).
  apply (proj1 (proj2 (postprocess_is_composition abc [1; 2; 3]%Z []))
           [double_brightness; crop_to_2]
           [fmap (fun p => 2 * p)%Z; take 2]).
  - reflexivity.
  - repeat constructor; intros frames; reflexivity.
Defined.

(** A checker that is still the abstract base class, and a transformer that
    fails: both exceptions reach the caller. *)
Lemma errors_propagate_witness :
  run_safety_check "a prompt" (World with_broken []) =
    (World with_broken [IsSafeCall A "a prompt";
                        IsSafeCall (broken "Stub") "a prompt"],
     Raises (NotImplementedError
               "Child classes must implement the is_safe method")) /\
  (postprocess [1; 2; 3]%Z (World with_broken [])).2 =
    Raises (PyExc "RuntimeError" "out of memory") /\
  Forall (reports_safe "a prompt") [A; C].
Proof.
  destruct (errors_propagate with_broken) as (Hcheck & Hpost & _).
  destruct (errors_propagate all_safe) as (_ & _ & Hsafe).
  split_and!.
  - apply (Hcheck "a prompt" [] [A; broken "Stub"; B] 1 (broken "Stub")).
    + reflexivity.
    + reflexivity.
    + repeat constructor. exists "". reflexivity.
    + reflexivity.
  - apply (Hpost [1; 2; 3]%Z [] [double_brightness; failing_blur; crop_to_2]
             1 failing_blur [2; 4; 6]%Z).
    + reflexivity.
    + reflexivity.
    + reflexivity.
    + reflexivity.
  - apply (Hsafe "a prompt" []
             [A; C]
             (World all_safe [IsSafeCall A "a prompt"; IsSafeCall C "a prompt"])
             "Prompt is safe").
    + reflexivity.
    + reflexivity.
Defined.

Lemma safe_message_never_empty_witness :
  generic_safe_msg unconfigured = "Prompt is safe" /\
  generic_safe_msg abc_generic = "ok" /\
  generic_block_msg unconfigured = "".
Proof.
  split_and!.
  - apply (proj1 (proj2 (safe_message_never_empty
                           (Input:=string) (Frames:=list Z)
                           None None None None))).
    left. reflexivity.
  - apply (proj1 (proj2 (proj2 (safe_message_never_empty
                                  (Input:=string) (Frames:=list Z)
                                  (Some [A; B; C]) (Some "Blocked.")
                                  (Some "ok") None)))).
    + reflexivity.
    + discriminate.
  - apply (proj2 (proj2 (proj2 (proj2 (proj2 (safe_message_never_empty
                           (Input:=string) (Frames:=list Z)
                           None None None None)))))).
    left. reflexivity.
Defined.

End RunnerExamples.

(** ** Properties of the text2world driver *)

(** *** File names *)

Local Arguments String.append !_ _ / : simpl nomatch.

Lemma append_length s t :
  String.length (s +:+ t) = String.length s + String.length t.
Proof. induction s as [|c s IH]; [done|]. cbn. by f_equal. Qed.

Lemma append_assoc s t u : (s +:+ t) +:+ u = s +:+ t +:+ u.
Proof. induction s as [|c s IH]; [done|]. cbn. by f_equal. Qed.

(** Two strings with suffixes of equal length are equal only piecewise. *)
Lemma append_inj_suffix s1 s2 t1 t2 :
  String.length t1 = String.length t2 ->
  s1 +:+ t1 = s2 +:+ t2 -> s1 = s2 /\ t1 = t2.
Proof.
  intros Hlen. revert s2.
  induction s1 as [|a s1 IH]; intros [|b s2]; cbn; intros H.
  - done.
  - subst t1. cbn in Hlen. rewrite append_length in Hlen. lia.
  - subst t2. cbn in Hlen. rewrite append_length in Hlen. lia.
  - injection H as -> H. by destruct (IH _ H) as [-> ->].
Qed.

Lemma str_of_nat_inj i k : str_of_nat i = str_of_nat k -> i = k.
Proof.
  unfold str_of_nat. intros H.
  apply (f_equal NilEmpty.uint_of_string) in H.
  rewrite !NilEmpty.usu in H. injection H as H.
  apply (f_equal Nat.of_uint) in H. by rewrite !Unsigned.of_to in H.
Qed.

(** An index followed by a file extension is a relative name. *)
Lemma indexed_name_relative i ext :
  starts_with_sep ext = false ->
  starts_with_sep (str_of_nat i +:+ ext) = false.
Proof.
  intros Hext. unfold str_of_nat.
  by destruct (Nat.to_uint i).
Qed.

(** Joining a relative name to a folder prepends a prefix that depends on
    the folder only. *)
Lemma path_join_relative a b :
  starts_with_sep b = false ->
  path_join a b =
  (if negb (str_truthy a) || ends_with_sep a then a else a +:+ "/") +:+ b.
Proof.
  intros Hb. unfold path_join. rewrite Hb.
  destruct (negb (str_truthy a) || ends_with_sep a); [done|].
  by rewrite append_assoc.
Qed.

Lemma indexed_path_inj folder i k ext1 ext2 :
  starts_with_sep ext1 = false -> starts_with_sep ext2 = false ->
  String.length ext1 = String.length ext2 ->
  path_join folder (str_of_nat i +:+ ext1)
  = path_join folder (str_of_nat k +:+ ext2) ->
  i = k /\ ext1 = ext2.
Proof.
  intros H1 H2 Hlen.
  rewrite !path_join_relative by by apply indexed_name_relative.
  intros H%String.app_inj.
  destruct (append_inj_suffix _ _ _ _ Hlen H) as [Hik ->].
  by apply str_of_nat_inj in Hik.
Qed.

Section DemoProperties.
Context {float Video Pipeline : Type}.
Variable ext : @Text2World.Externals float Video Pipeline.
Implicit Types (cfg args : @Text2World.Namespace float)
  (j : list (@Text2World.event float Video))
  (prompts : list (gmap string pyval)) (pipeline : Pipeline).

Import Text2World.

Lemma video_path_inj cfg i k : video_path cfg i = video_path cfg k -> i = k.
Proof. intros H. by apply indexed_path_inj in H as [-> _]. Qed.

Lemma text_path_inj cfg i k : text_path cfg i = text_path cfg k -> i = k.
Proof. intros H. by apply indexed_path_inj in H as [-> _]. Qed.

Lemma video_path_ne_text_path cfg i k : video_path cfg i <> text_path cfg k.
Proof. intros H. by apply indexed_path_inj in H as [_ ?]. Qed.

(** *** One entry *)

(** In batch mode, an entry that does not make [generate] raise, and whose
    files can be written, takes the loop body to its end with the journal
    entries of its fate. *)
Lemma demo_body_journal cfg pipeline i input_dict g j :
  opt_truthy (batch_input_path cfg) = true ->
  (forall e, fate_of ext cfg pipeline input_dict <> Failed e) ->
  (forall video prompt,
     fate_of ext cfg pipeline input_dict = Generated video prompt ->
     save_video ext video (fps cfg) (height cfg) (width cfg) 5
       (video_path cfg i) = Returns tt /\
     write_file ext (text_path cfg i) (list_byte_of_string prompt)
     = Returns tt) ->
  demo_body ext cfg pipeline i input_dict (World g j) =
  (World g (j ++ entry_journal cfg i input_dict
                   (fate_of ext cfg pipeline input_dict)),
   Returns tt).
Proof.
  intros Hbatch Hgen Hsave.
  unfold demo_body, entry_journal, fate_of in *.
  destruct (get_prompt input_dict) as [|current_prompt]; [done|].
  unfold Py.bind at 1. cbn [emit Py.modify global_args journal].
  unfold Py.bind at 1. cbn [Py.lift].
  destruct (generate ext pipeline current_prompt (negative_prompt cfg)
              (word_limit_to_skip_upsampler cfg)) as [[[video prompt]|]|e].
  - destruct (Hsave video prompt eq_refl) as [Hv Ht].
    unfold save_paths. rewrite Hbatch.
    fold (video_path cfg i) (text_path cfg i).
    unfold Py.bind, emit, log, emit, Py.modify, Py.lift.
    cbn [global_args journal]. rewrite Hv, Ht.
    cbn [global_args journal]. by rewrite <- !app_assoc.
  - unfold log, emit, Py.modify. cbn [global_args journal].
    by rewrite <- app_assoc.
  - by destruct (Hgen e).
Qed.

(** *** The loop *)

Lemma demo_loop_journal cfg pipeline prompts i g j :
  opt_truthy (batch_input_path cfg) = true ->
  (forall d e, d ∈ prompts -> fate_of ext cfg pipeline d <> Failed e) ->
  (forall k d video prompt,
     prompts !! k = Some d ->
     fate_of ext cfg pipeline d = Generated video prompt ->
     save_video ext video (fps cfg) (height cfg) (width cfg) 5
       (video_path cfg (i + k)) = Returns tt /\
     write_file ext (text_path cfg (i + k)) (list_byte_of_string prompt)
     = Returns tt) ->
  demo_loop ext cfg pipeline i prompts (World g j) =
  (World g (j ++ batch_journal ext cfg pipeline i prompts), Returns tt).
Proof.
  intros Hbatch. revert i j.
  induction prompts as [|d rest IH]; intros i j Hgen Hsave.
  - cbn. by rewrite app_nil_r.
  - cbn [demo_loop batch_journal]. unfold Py.bind at 1.
    rewrite demo_body_journal; [|done| |].
    + rewrite IH.
      * by rewrite <- app_assoc.
      * intros d' e Hd'. apply Hgen. by right.
      * intros k d' video prompt Hk.
        replace (S i + k) with (i + S k) by lia. by apply Hsave.
    + intros e. apply Hgen. by left.
    + intros video prompt Hf.
      replace i with (i + 0) at 1 2 by lia. by apply (Hsave 0 d).
Qed.

(** Whatever the collaborators do, the loop only appends to the journal,
    never reads the prompt file and leaves the global [args] alone. *)
Lemma demo_body_frame cfg pipeline i input_dict g j :
  exists j' o,
    demo_body ext cfg pipeline i input_dict (World g j)
    = (World g (j ++ j'), o) /\ prompts_read j' = [].
Proof.
  unfold demo_body.
  destruct (get_prompt input_dict) as [|current_prompt]; [by eexists [_], _|].
  unfold Py.bind at 1. cbn [emit Py.modify global_args journal].
  unfold Py.bind at 1. cbn [Py.lift].
  destruct (generate ext pipeline current_prompt (negative_prompt cfg)
              (word_limit_to_skip_upsampler cfg)) as [[[video prompt]|]|e].
  - destruct (save_paths cfg i) as [video_save_path prompt_save_path].
    unfold Py.bind, emit, log, emit, Py.modify, Py.lift.
    cbn [global_args journal].
    destruct (save_video ext video (fps cfg) (height cfg) (width cfg) 5
                video_save_path) as [[]|e].
    + cbn [global_args journal].
      destruct (write_file ext prompt_save_path (list_byte_of_string prompt))
        as [[]|e]; cbn [global_args journal]; rewrite <- !app_assoc;
        by eexists _, _.
    + rewrite <- !app_assoc. by eexists _, _.
  - unfold log, emit, Py.modify. cbn [global_args journal].
    rewrite <- app_assoc. by eexists _, _.
  - by eexists [_], _.
Qed.

Lemma prompts_read_app j1 j2 :
  prompts_read (j1 ++ j2)
  = prompts_read (Video:=Video) j1 ++ prompts_read j2.
Proof. apply omap_app. Qed.

Lemma demo_loop_frame cfg pipeline prompts i g j :
  exists j' o,
    demo_loop ext cfg pipeline i prompts (World g j)
    = (World g (j ++ j'), o) /\ prompts_read j' = [].
Proof.
  revert i j. induction prompts as [|d rest IH]; intros i j.
  - exists [], (Returns tt). cbn. by rewrite app_nil_r.
  - cbn [demo_loop]. unfold Py.bind at 1.
    destruct (demo_body_frame cfg pipeline i d g j) as (j1 & o & -> & Hr1).
    destruct o as [[]|e].
    + destruct (IH (S i) (j ++ j1)) as (j2 & o & -> & Hr2).
      exists (j1 ++ j2), o. rewrite app_assoc. split; [done|].
      by rewrite prompts_read_app, Hr1, Hr2.
    + by exists j1, (Raises e).
Qed.

(** *** What the journal of a batch shows *)

Lemma written_app j1 j2 :
  written (j1 ++ j2) = written (float:=float) (Video:=Video) j1 ++ written j2.
Proof. apply omap_app. Qed.

Lemma criticals_app j1 j2 :
  criticals (j1 ++ j2)
  = criticals (float:=float) (Video:=Video) j1 ++ criticals j2.
Proof. apply omap_app. Qed.

Lemma written_entry_journal cfg pipeline i d :
  (forall e, fate_of ext cfg pipeline d <> Failed e) ->
  written (entry_journal cfg i d (fate_of ext cfg pipeline d))
  = files_of cfg i (fate_of ext cfg pipeline d).
Proof.
  unfold entry_journal, fate_of. intros Hgen.
  destruct (get_prompt d) as [|current_prompt]; [done|].
  destruct (generate ext pipeline current_prompt (negative_prompt cfg)
              (word_limit_to_skip_upsampler cfg)) as [[[video prompt]|]|e];
    [done | done | by destruct (Hgen e)].
Qed.

Lemma criticals_entry_journal cfg pipeline i d :
  (forall e, fate_of ext cfg pipeline d <> Failed e) ->
  length (criticals (entry_journal cfg i d (fate_of ext cfg pipeline d)))
  = if is_skipped (fate_of ext cfg pipeline d) then 1 else 0.
Proof.
  unfold entry_journal, fate_of. intros Hgen.
  destruct (get_prompt d) as [|current_prompt]; [done|].
  destruct (generate ext pipeline current_prompt (negative_prompt cfg)
              (word_limit_to_skip_upsampler cfg)) as [[[video prompt]|]|e];
    [done | done | by destruct (Hgen e)].
Qed.

Lemma written_batch_journal cfg pipeline prompts i :
  (forall d e, d ∈ prompts -> fate_of ext cfg pipeline d <> Failed e) ->
  written (batch_journal ext cfg pipeline i prompts)
  = batch_files ext cfg pipeline i prompts.
Proof.
  revert i. induction prompts as [|d rest IH]; intros i Hgen; [done|].
  cbn [batch_journal batch_files].
  rewrite written_app, written_entry_journal, IH; [done| |].
  - intros d' e Hd'. apply Hgen. by right.
  - intros e. apply Hgen. by left.
Qed.

Lemma criticals_batch_journal cfg pipeline prompts i :
  (forall d e, d ∈ prompts -> fate_of ext cfg pipeline d <> Failed e) ->
  length (criticals (batch_journal ext cfg pipeline i prompts))
  = length (List.filter (fun d => is_skipped (fate_of ext cfg pipeline d))
              prompts).
Proof.
  revert i. induction prompts as [|d rest IH]; intros i Hgen; [done|].
  cbn [batch_journal List.filter].
  rewrite criticals_app, length_app, criticals_entry_journal, IH.
  - by destruct (is_skipped (fate_of ext cfg pipeline d)).
  - intros d' e Hd'. apply Hgen. by right.
  - intros e. apply Hgen. by left.
Qed.

(** Every file of a batch belongs to an entry that was generated, and is
    named by that entry's index. *)
Lemma elem_of_batch_files cfg pipeline prompts i x :
  x ∈ batch_files ext cfg pipeline i prompts <->
  exists k d video prompt,
    prompts !! k = Some d /\
    fate_of ext cfg pipeline d = Generated video prompt /\
    (x = video_path cfg (i + k) \/ x = text_path cfg (i + k)).
Proof.
  revert i. induction prompts as [|d rest IH]; intros i.
  - cbn. split; [by intros ?%elem_of_nil | by intros (k & ? & ? & ? & ? & _)].
  - cbn [batch_files]. rewrite elem_of_app, IH. split.
    + intros [Hx | (k & d' & video & prompt & Hk & Hf & Hx)].
      * destruct (fate_of ext cfg pipeline d) as [| |video prompt|e] eqn:Hf;
          cbn in Hx; try by apply elem_of_nil in Hx.
        exists 0, d, video, prompt. rewrite Nat.add_0_r.
        split_and!; [done..|].
        apply elem_of_cons in Hx as [->| ->%list_elem_of_singleton]; auto.
      * exists (S k), d', video, prompt.
        replace (i + S k) with (S i + k) by lia. done.
    + intros (k & d' & video & prompt & Hk & Hf & Hx). destruct k as [|k].
      * left. cbn in Hk. simplify_eq. rewrite Hf, Nat.add_0_r in *.
        cbn. destruct Hx as [-> | ->]; [by left | right; by left].
      * right. exists k, d', video, prompt.
        replace (S i + k) with (i + S k) by lia. done.
Qed.

(** *** The driver before the loop *)

(** In batch mode with the global [args] bound and the collaborators
    returning, [demo] gets to the loop with the batch file's entries. *)
Lemma demo_batch_setup cfg args pipeline path prompts j :
  batch_input_path cfg = Some path -> str_truthy path = true ->
  validate_args ext cfg "text2world" = Returns tt ->
  DiffusionText2WorldGenerationPipeline ext (pipeline_kwargs cfg "text2world")
  = Returns pipeline ->
  read_prompts_from_file ext path = Returns prompts ->
  makedirs ext (video_save_folder cfg) = Returns tt ->
  demo ext cfg (World (Some args) j) =
  demo_loop ext cfg pipeline 0 prompts
    (World (Some args)
       (j ++ setup_journal cfg args path ++ [Makedirs (video_save_folder cfg)])).
Proof.
  intros Hpath Htruthy Hv Hp Hr Hm.
  unfold demo, Py.bind, load_global_args, log, emit, Py.modify, Py.lift.
  cbn [global_args journal]. rewrite Hv, Hp, Hpath.
  cbn [opt_truthy]. rewrite Htruthy. cbn [global_args journal default from_option id].
  rewrite Hr, Hm. unfold setup_journal.
  by rewrite <- !app_assoc.
Qed.

(** The same, whatever reading the file and the loop then do. *)
Lemma demo_batch_reads cfg args pipeline path j :
  batch_input_path cfg = Some path -> str_truthy path = true ->
  validate_args ext cfg "text2world" = Returns tt ->
  DiffusionText2WorldGenerationPipeline ext (pipeline_kwargs cfg "text2world")
  = Returns pipeline ->
  exists j' o,
    demo ext cfg (World (Some args) j) =
    (World (Some args) (j ++ setup_journal cfg args path ++ j'), o).
Proof.
  intros Hpath Htruthy Hv Hp.
  unfold demo, Py.bind, load_global_args, log, emit, Py.modify, Py.lift.
  cbn [global_args journal]. rewrite Hv, Hp, Hpath.
  cbn [opt_truthy]. rewrite Htruthy.
  cbn [global_args journal default from_option id].
  destruct (read_prompts_from_file ext path) as [prompts|e].
  - destruct (makedirs ext (video_save_folder cfg)) as [[]|e].
    + match goal with
      | |- context [demo_loop _ _ _ _ _ (World _ ?J)] =>
          destruct (demo_loop_frame cfg pipeline prompts 0 (Some args) J)
            as (j' & o & -> & _)
      end.
      exists (Makedirs (video_save_folder cfg) :: j'), o.
      unfold setup_journal. by rewrite <- !app_assoc.
    + exists [Makedirs (video_save_folder cfg)], (Raises e).
      unfold setup_journal. by rewrite <- !app_assoc.
  - exists [], (Raises e). unfold setup_journal.
    by rewrite <- !app_assoc.
Qed.

(** In batch mode without the global [args], [demo] stops at the log call
    of the batch branch, or earlier if the set-up raises. *)
Lemma demo_batch_unbound cfg j :
  opt_truthy (batch_input_path cfg) = true ->
  demo ext cfg (World None j) =
  match validate_args ext cfg "text2world" with
  | Raises e =>
      (World None (j ++ [SetRandomSeed (seed cfg);
                         ValidateArgs cfg "text2world"]), Raises e)
  | Returns _ =>
      match DiffusionText2WorldGenerationPipeline ext
              (pipeline_kwargs cfg "text2world") with
      | Raises e =>
          (World None (j ++ [SetRandomSeed (seed cfg);
                             ValidateArgs cfg "text2world";
                             NewPipeline (pipeline_kwargs cfg "text2world")]),
           Raises e)
      | Returns _ =>
          (World None (j ++ [SetRandomSeed (seed cfg);
                             ValidateArgs cfg "text2world";
                             NewPipeline (pipeline_kwargs cfg "text2world")]),
           Raises (NameError "args"))
      end
  end.
Proof.
  intros Hbatch.
  unfold demo, Py.bind, load_global_args, log, emit, Py.modify, Py.lift.
  cbn [global_args journal]. rewrite Hbatch.
  destruct (validate_args ext cfg "text2world") as [[]|e].
  - destruct (DiffusionText2WorldGenerationPipeline ext
                (pipeline_kwargs cfg "text2world")) as [pipeline|e];
      cbn [global_args journal]; by rewrite <- !app_assoc.
  - by rewrite <- !app_assoc.
Qed.

(** *** What the driver guarantees *)

(** C8.  In batch mode (the global [args] bound, set-up and file writes
    succeeding, [generate] not raising) [demo] runs the whole batch and
    returns.  The files written are exactly those of the generated
    entries, each named by the entry's own index in the batch; an entry
    whose prompt is missing or that the pipeline blocks has no file
    written under its index; and the CRITICAL log records are as many as
    the entries skipped. *)
Theorem batch_skips_and_continues cfg args pipeline path prompts j :
  batch_input_path cfg = Some path -> str_truthy path = true ->
  validate_args ext cfg "text2world" = Returns tt ->
  DiffusionText2WorldGenerationPipeline ext (pipeline_kwargs cfg "text2world")
  = Returns pipeline ->
  read_prompts_from_file ext path = Returns prompts ->
  makedirs ext (video_save_folder cfg) = Returns tt ->
  (forall d e, d ∈ prompts -> fate_of ext cfg pipeline d <> Failed e) ->
  (forall k d video prompt,
     prompts !! k = Some d ->
     fate_of ext cfg pipeline d = Generated video prompt ->
     save_video ext video (fps cfg) (height cfg) (width cfg) 5
       (video_path cfg k) = Returns tt /\
     write_file ext (text_path cfg k) (list_byte_of_string prompt)
     = Returns tt) ->
  exists j',
    demo ext cfg (World (Some args) j)
    = (World (Some args) (j ++ j'), Returns tt) /\
    written j' = batch_files ext cfg pipeline 0 prompts /\
    length (criticals j')
    = length (List.filter
                (fun d => is_skipped (fate_of ext cfg pipeline d)) prompts) /\
    (forall i d,
       prompts !! i = Some d ->
       if is_skipped (fate_of ext cfg pipeline d)
       then (video_path cfg i ∉ written j') /\ (text_path cfg i ∉ written j')
       else video_path cfg i ∈ written j' /\ text_path cfg i ∈ written j').
Proof.
  intros Hpath Htruthy Hv Hp Hr Hm Hgen Hsave.
  assert (Hbatch : opt_truthy (batch_input_path cfg) = true)
    by (by rewrite Hpath).
  exists (setup_journal cfg args path ++ [Makedirs (video_save_folder cfg)]
          ++ batch_journal ext cfg pipeline 0 prompts).
  assert (Hw : written (setup_journal cfg args path
                        ++ [Makedirs (video_save_folder cfg)]
                        ++ batch_journal ext cfg pipeline 0 prompts)
               = batch_files ext cfg pipeline 0 prompts).
  { rewrite !written_app, written_batch_journal by done. done. }
  split_and!.
  - rewrite (demo_batch_setup cfg args pipeline path prompts) by done.
    rewrite demo_loop_journal by done. by rewrite <- !app_assoc.
  - done.
  - rewrite !criticals_app, !length_app, criticals_batch_journal by done.
    done.
  - intros i d Hi. rewrite Hw.
    destruct (fate_of ext cfg pipeline d) as [| |video prompt|e] eqn:Hf;
      cbn [is_skipped].
    1,2: split; intros (k & d' & video & prompt & Hk & Hf' & Hx)
           %elem_of_batch_files; cbn in Hx;
         (destruct Hx as [Hx | Hx];
          [ first [ apply video_path_inj in Hx
                  | symmetry in Hx; by apply video_path_ne_text_path in Hx ]
          | first [ apply text_path_inj in Hx
                  | by apply video_path_ne_text_path in Hx ] ]);
         subst k; congruence.
    + split; apply elem_of_batch_files; exists i, d, video, prompt; auto.
    + by destruct (Hgen d e); [eapply list_elem_of_lookup_2|].
Qed.

(** C10.  Called with a non-empty [batch_input_path] while the module has
    no global [args], [demo] never returns normally and never reads the
    prompt file; once the set-up has returned, the exception is the
    [NameError] for [args].  With the global bound, the same call logs the
    path and reads the prompt file. *)
Theorem batch_mode_needs_global_args cfg j :
  opt_truthy (batch_input_path cfg) = true ->
  (exists j' e,
     demo ext cfg (World None j) = (World None (j ++ j'), Raises e) /\
     prompts_read j' = []) /\
  (forall pipeline,
     validate_args ext cfg "text2world" = Returns tt ->
     DiffusionText2WorldGenerationPipeline ext
       (pipeline_kwargs cfg "text2world") = Returns pipeline ->
     (demo ext cfg (World None j)).2 = Raises (NameError "args")) /\
  (forall args pipeline,
     validate_args ext cfg "text2world" = Returns tt ->
     DiffusionText2WorldGenerationPipeline ext
       (pipeline_kwargs cfg "text2world") = Returns pipeline ->
     exists j' o,
       demo ext cfg (World (Some args) j) =
       (World (Some args)
          (j ++ setup_journal cfg args (default "" (batch_input_path cfg))
             ++ j'), o)).
Proof.
  intros Hbatch. split_and!.
  - rewrite demo_batch_unbound by done.
    destruct (validate_args ext cfg "text2world") as [[]|e];
      [destruct (DiffusionText2WorldGenerationPipeline ext
                   (pipeline_kwargs cfg "text2world")) as [pipeline|e]|];
      by eexists _, _.
  - intros pipeline Hv Hp. by rewrite demo_batch_unbound, Hv, Hp.
  - intros args pipeline Hv Hp.
    destruct (batch_input_path cfg) as [path|] eqn:Hpath; [|done].
    by apply (demo_batch_reads cfg args pipeline path).
Qed.

End DemoProperties.

(** *** The driver on the example batch *)

Section DemoExampleRuns.
Import Text2World DemoExamples.

(** Three entries, the second without a prompt: files for the indices 0
    and 2 only, and one CRITICAL record. *)
Lemma batch_skips_and_continues_witness :
  exists j',
    demo ext cfg (World (Some cfg) []) = (World (Some cfg) j', Returns tt) /\
    written j' = ["outputs/0.mp4"; "outputs/0.txt";
                  "outputs/2.mp4"; "outputs/2.txt"] /\
    length (criticals j') = 1 /\
    ("outputs/1.mp4" ∉ written j') /\ ("outputs/1.txt" ∉ written j').
Proof.
  destruct (batch_skips_and_continues ext cfg cfg tt "prompts.jsonl"
              three_prompts [])
    as (j' & Hrun & Hw & Hc & Hfiles).
  - reflexivity.
  - reflexivity.
  - reflexivity.
  - reflexivity.
  - reflexivity.
  - reflexivity.
  - intros d e Hd. unfold three_prompts in Hd.
    repeat (apply elem_of_cons in Hd as [-> | Hd]);
      [vm_compute; discriminate..|by apply elem_of_nil in Hd].
  - intros k d video prompt _ _. split; reflexivity.
  - exists j'. split_and!.
    + exact Hrun.
    + rewrite Hw. vm_compute. reflexivity.
    + rewrite Hc. vm_compute. reflexivity.
    + apply (Hfiles 1 {[ "visual_input" := PyStr "clip.mp4" ]} eq_refl).
    + apply (Hfiles 1 {[ "visual_input" := PyStr "clip.mp4" ]} eq_refl).
Defined.

Lemma batch_mode_needs_global_args_witness :
  (demo ext cfg (World None [])).2 = Raises (NameError "args").
Proof.
  apply (proj1 (proj2 (batch_mode_needs_global_args ext cfg [] eq_refl)) tt).
  - reflexivity.
  - reflexivity.
Defined.

End DemoExampleRuns.

(** ** Further properties of the guardrail runner *)

Section RunnerFurther.
Context {Input Frames : Type}.
Implicit Types (r : @GuardrailRunner.t Input Frames) (x : Input)
  (j : list (@GuardrailRunner.event Input Frames))
  (cs : list (ContentSafetyGuardrail.t Input))
  (ts : list (PostprocessingGuardrail.t Frames)).

Import GuardrailRunner.

(** *** Which checkers run *)

Lemma safety_loop_prefix r x cs j :
  exists n o,
    n <= length cs /\
    safety_loop cs x (World r j)
    = (World r (j ++ invocations x (take n cs)), o).
Proof.
  revert j. induction cs as [|c cs IH]; intros j.
  - exists 0, (Returns None). cbn. by rewrite app_nil_r.
  - rewrite safety_loop_cons.
    destruct (ContentSafetyGuardrail.is_safe c x) as [[[] name]|e].
    + destruct (IH (j ++ [IsSafeCall c x])) as (n & o & Hn & ->).
      exists (S n), o. cbn. split; [lia|]. by rewrite <- app_assoc.
    + exists 1, (Returns (Some (false, block_msg r name))).
      cbn. split; [lia|]. by rewrite take_0.
    + exists 1, (Raises e). cbn. split; [lia|]. by rewrite take_0.
Qed.

(** Whatever the checkers do, a configured runner invokes an initial
    segment of its checker list, each checker once, in order and on the
    given input, and does nothing else: it logs nothing and calls no
    transformer. *)
Theorem checkers_invoked_form_a_prefix r x j cs :
  safety_models r = Some cs -> cs <> [] ->
  exists n,
    1 <= n <= length cs /\
    (run_safety_check x (World r j)).1
    = World r (j ++ invocations x (take n cs)).
Proof.
  intros Hm Hne. destruct cs as [|c cs]; [done|].
  rewrite (run_safety_check_configured r x c cs) by done.
  rewrite safety_loop_cons.
  destruct (ContentSafetyGuardrail.is_safe c x) as [[[] name]|e].
  - destruct (safety_loop_prefix r x cs (j ++ [IsSafeCall c x]))
      as (n & o & Hn & ->).
    exists (S n). cbn [length]. split; [lia|].
    cbn [take invocations fmap list_fmap]. rewrite <- app_assoc.
    by destruct o as [[res|]|e].
  - exists 1. cbn. split; [lia|]. by rewrite take_0.
  - exists 1. cbn. split; [lia|]. by rewrite take_0.
Qed.

(** *** Where a verdict comes from *)

(** Every checker list either reports safe throughout, or has a first
    checker that does not: one that reports unsafe or one that raises. *)
Lemma first_not_safe x cs :
  Forall (reports_safe x) cs \/
  exists k c,
    cs !! k = Some c /\ Forall (reports_safe x) (take k cs) /\
    ((exists reason, reports_unsafe x reason c) \/
     (exists e, ContentSafetyGuardrail.is_safe c x = Raises e)).
Proof.
  induction cs as [|c cs IH]; [left; constructor|].
  destruct (ContentSafetyGuardrail.is_safe c x) as [[[] name]|e] eqn:Hc.
  - destruct IH as [Hall | (k & c' & Hk & Hsafe & Hc')].
    + left. constructor; [by exists name | done].
    + right. exists (S k), c'. split_and!; [done| |done].
      cbn. constructor; [by exists name | done].
  - right. exists 0, c. split_and!; [done|constructor|left; by exists name].
  - right. exists 0, c. split_and!; [done|constructor|right; by exists e].
Qed.

(** The outcome of a configured run, by cases on the first checker that
    does not report safe. *)
Lemma run_safety_check_cases r x j cs :
  safety_models r = Some cs ->
  (Forall (reports_safe x) cs /\
   (run_safety_check x (World r j)).2 = Returns (true, generic_safe_msg r)) \/
  (exists k c reason,
     cs !! k = Some c /\ Forall (reports_safe x) (take k cs) /\
     reports_unsafe x reason c /\
     (run_safety_check x (World r j)).2
     = Returns (false, block_msg r reason)) \/
  (exists k c e,
     cs !! k = Some c /\ Forall (reports_safe x) (take k cs) /\
     ContentSafetyGuardrail.is_safe c x = Raises e /\
     (run_safety_check x (World r j)).2 = Raises e).
Proof.
  intros Hm.
  destruct (first_not_safe x cs)
    as [Hall | (k & c & Hk & Hsafe & [[reason Hc] | [e Hc]])].
  - left. split; [done|]. destruct cs as [|c cs].
    + by rewrite run_safety_check_unconfigured by (by rewrite Hm).
    + rewrite (run_safety_check_configured r x c cs) by done.
      by rewrite safety_loop_all_safe.
  - right; left. exists k, c, reason. split_and!; [done..|].
    destruct (lookup_nonempty cs k c Hk) as (c0 & cs' & ->).
    rewrite (run_safety_check_configured r x c0 cs') by done.
    by rewrite (safety_loop_unsafe r x _ k c reason).
  - right; right. exists k, c, e. split_and!; [done..|].
    destruct (lookup_nonempty cs k c Hk) as (c0 & cs' & ->).
    rewrite (run_safety_check_configured r x c0 cs') by done.
    by rewrite (safety_loop_raises r x _ k c e).
Qed.

(** A block always traces back to a checker: when [run_safety_check]
    returns [False], some configured checker reported unsafe, every checker
    before it reported safe, and the message is the one resolved from that
    checker's reply.  The runner never blocks on its own. *)
Theorem block_traces_to_a_checker r x j w msg :
  run_safety_check x (World r j) = (w, Returns (false, msg)) ->
  exists cs k c reason,
    safety_models r = Some cs /\ cs !! k = Some c /\
    Forall (reports_safe x) (take k cs) /\
    reports_unsafe x reason c /\ msg = block_msg r reason.
Proof.
  intros Hrun. destruct (safety_models r) as [cs|] eqn:Hm.
  - destruct (run_safety_check_cases r x j cs Hm)
      as [[_ H] | [(k & c & reason & Hk & Hsafe & Hc & H)
                  | (k & c & e & _ & _ & _ & H)]];
      rewrite Hrun in H; cbn in H; [done| |done].
    exists cs, k, c, reason. by simplify_eq.
  - rewrite run_safety_check_unconfigured in Hrun by (by rewrite Hm). done.
Qed.

Lemma left_to_right_raises_inv ts frames e :
  left_to_right ts frames = Raises e ->
  exists k t mid,
    ts !! k = Some t /\
    left_to_right (take k ts) frames = Returns mid /\
    PostprocessingGuardrail.postprocess t mid = Raises e.
Proof.
  revert frames. induction ts as [|t ts IH]; intros frames; [done|].
  rewrite left_to_right_cons.
  destruct (PostprocessingGuardrail.postprocess t frames) as [frames'|e'] eqn:Ht.
  - intros (k & t' & mid & Hk & Hmid & Hr)%IH.
    exists (S k), t', mid. split_and!; [done| |done].
    cbn [take]. by rewrite left_to_right_cons, Ht.
  - intros [= ->]. by exists 0, t, frames.
Qed.

(** For checkers that reply with a verdict and a string, as [is_safe]
    documents and as they are typed here, the runner raises nothing of its
    own.  An exception coming out of [run_safety_check] is the one raised by
    the first checker that did not report safe, invoked on that input; one
    coming out of [postprocess] is the one raised by a transformer of the
    chain when it was given the frames the transformers before it
    produced. *)
Theorem runner_raises_only_what_a_guardrail_raises r :
  (forall x j w e,
     run_safety_check x (World r j) = (w, Raises e) ->
     exists cs k c,
       safety_models r = Some cs /\ cs !! k = Some c /\
       Forall (reports_safe x) (take k cs) /\
       ContentSafetyGuardrail.is_safe c x = Raises e) /\
  (forall frames j w e,
     postprocess frames (World r j) = (w, Raises e) ->
     exists ts k t mid,
       postprocessors r = Some ts /\ ts !! k = Some t /\
       left_to_right (take k ts) frames = Returns mid /\
       PostprocessingGuardrail.postprocess t mid = Raises e).
Proof.
  split.
  - intros x j w e Hrun. destruct (safety_models r) as [cs|] eqn:Hm.
    + destruct (run_safety_check_cases r x j cs Hm)
        as [[_ H] | [(k & c & reason & _ & _ & _ & H)
                    | (k & c & e' & Hk & Hsafe & Hc & H)]];
        rewrite Hrun in H; cbn in H; [done..|].
      exists cs, k, c. split_and!; [done..|by simplify_eq].
    + rewrite run_safety_check_unconfigured in Hrun by (by rewrite Hm). done.
  - intros frames j w e Hrun.
    destruct (postprocess_outcome r frames j) as [j' Hp].
    rewrite Hp in Hrun. injection Hrun as _ Hchain.
    destruct (postprocessors r) as [ts|] eqn:Hts; [|done].
    apply left_to_right_raises_inv in Hchain as (k & t & mid & Hk & Hmid & Hr).
    by exists ts, k, t, mid.
Qed.

(** *** What a verdict says *)

Lemma block_msg_nonempty r reason : block_msg r reason <> "".
Proof.
  unfold block_msg. destruct (generic_block_msg r) as [|a g]; cbn.
  - by destruct reason.
  - done.
Qed.

(** A runner built by [__init__] never returns an empty message, pass or
    block, whatever its configuration and its checkers' replies. *)
Theorem returned_message_never_empty sm b s pp x j w ok msg :
  run_safety_check x (World (init sm b s pp) j) = (w, Returns (ok, msg)) ->
  msg <> "".
Proof.
  intros Hrun. set (r := init sm b s pp) in *.
  assert (Hsafe : generic_safe_msg r <> "").
  { subst r. cbn. by destruct (default "" s). }
  destruct (safety_models r) as [cs|] eqn:Hm.
  - destruct (run_safety_check_cases r x j cs Hm)
      as [[_ H] | [(k & c & reason & _ & _ & _ & H)
                  | (k & c & e & _ & _ & _ & H)]];
      rewrite Hrun in H; cbn in H; simplify_eq; [done|].
    apply block_msg_nonempty.
  - rewrite run_safety_check_unconfigured in Hrun by (by rewrite Hm).
    by simplify_eq.
Qed.

(** For checkers that all return, the conjunction of their verdicts is
    true exactly when each of them reports safe. *)
Lemma replies_all_safe x cs (replies : list (bool * string)) :
  Forall2 (fun c reply => ContentSafetyGuardrail.is_safe c x = Returns reply)
    cs replies ->
  forallb fst replies = true <-> Forall (reports_safe x) cs.
Proof.
  induction 1 as [|c [ok m] cs replies Hc _ IH]; [done|].
  cbn. rewrite andb_true_iff, Forall_cons, IH. unfold reports_safe.
  split; intros [H1 H2]; (split; [|done]).
  - exists m. by rewrite Hc, H1.
  - destruct H1 as [m' Hm']. congruence.
Qed.

(** When every checker returns, the verdict is the conjunction of the
    checkers' verdicts. *)
Theorem verdict_is_conjunction r x j cs replies :
  safety_models r = Some cs ->
  Forall2 (fun c reply => ContentSafetyGuardrail.is_safe c x = Returns reply)
    cs replies ->
  exists msg,
    (run_safety_check x (World r j)).2 = Returns (forallb fst replies, msg).
Proof.
  intros Hm Hreplies.
  destruct (run_safety_check_cases r x j cs Hm)
    as [[Hall H] | [(k & c & reason & Hk & _ & Hc & H)
                   | (k & c & e & Hk & _ & Hc & H)]].
  - rewrite H. apply (replies_all_safe x cs replies Hreplies) in Hall as ->.
    by eexists.
  - rewrite H. eexists. do 2 f_equal.
    destruct (forallb fst replies) eqn:Hb; [|done].
    apply (replies_all_safe x cs replies Hreplies) in Hb.
    eapply Forall_lookup_1 in Hb as [m Hsafe]; [|done].
    unfold reports_unsafe in Hc. congruence.
  - eapply Forall2_lookup_l in Hreplies as (reply & _ & Hr); [|done].
    congruence.
Qed.

(** So for checkers that all return, the order in which they are
    configured can change the message of a block but never the verdict. *)
Theorem verdict_ignores_checker_order r x j cs cs' :
  cs ≡ₚ cs' ->
  Forall (fun c => exists reply,
            ContentSafetyGuardrail.is_safe c x = Returns reply) cs ->
  exists ok msg msg',
    (run_safety_check x (World (with_safety_models r cs) j)).2
    = Returns (ok, msg) /\
    (run_safety_check x (World (with_safety_models r cs') j)).2
    = Returns (ok, msg').
Proof.
  intros Hperm Hret.
  assert (Hret' : Forall (fun c => exists reply,
            ContentSafetyGuardrail.is_safe c x = Returns reply) cs')
    by by rewrite <- Hperm.
  assert (Hcases : forall l,
    Forall (fun c => exists reply,
              ContentSafetyGuardrail.is_safe c x = Returns reply) l ->
    exists ok msg,
      (run_safety_check x (World (with_safety_models r l) j)).2
      = Returns (ok, msg) /\
      (ok = true <-> Forall (reports_safe x) l)).
  { intros l Hl.
    destruct (run_safety_check_cases (with_safety_models r l) x j l eq_refl)
      as [[Hall H] | [(k & c & reason & Hk & _ & Hc & H)
                     | (k & c & e & Hk & _ & Hc & H)]].
    - by exists true, (generic_safe_msg (with_safety_models r l)).
    - exists false, (block_msg (with_safety_models r l) reason).
      split; [done|]. split; [done|].
      intros Hall. eapply Forall_lookup_1 in Hall as [m Hsafe]; [|done].
      unfold reports_unsafe in Hc. congruence.
    - eapply Forall_lookup_1 in Hl as [reply Hr]; [|done]. congruence. }
  destruct (Hcases cs Hret) as (ok & msg & H1 & Hok).
  destruct (Hcases cs' Hret') as (ok' & msg' & H2 & Hok').
  exists ok, msg, msg'. split; [done|]. rewrite H2. do 2 f_equal.
  rewrite Hperm in Hok.
  destruct ok, ok'; try done.
  - by apply Hok', Hok.
  - symmetry. by apply Hok, Hok'.
Qed.

(** *** Putting checker lists together *)

Lemma run_safety_check_passes r x j cs :
  safety_models r = Some cs -> Forall (reports_safe x) cs ->
  (run_safety_check x (World r j)).2 = Returns (true, generic_safe_msg r).
Proof.
  intros Hm Hall. destruct cs as [|c cs].
  - by rewrite run_safety_check_unconfigured by (by rewrite Hm).
  - rewrite (run_safety_check_configured r x c cs) by done.
    by rewrite safety_loop_all_safe.
Qed.

Lemma run_safety_check_blocks r x j cs k c reason :
  safety_models r = Some cs -> cs !! k = Some c ->
  Forall (reports_safe x) (take k cs) -> reports_unsafe x reason c ->
  (run_safety_check x (World r j)).2 = Returns (false, block_msg r reason).
Proof.
  intros Hm Hk Hsafe Hc.
  destruct (lookup_nonempty cs k c Hk) as (c0 & cs' & ->).
  rewrite (run_safety_check_configured r x c0 cs') by done.
  by rewrite (safety_loop_unsafe r x _ k c reason).
Qed.

Lemma run_safety_check_raises r x j cs k c e :
  safety_models r = Some cs -> cs !! k = Some c ->
  Forall (reports_safe x) (take k cs) ->
  ContentSafetyGuardrail.is_safe c x = Raises e ->
  (run_safety_check x (World r j)).2 = Raises e.
Proof.
  intros Hm Hk Hsafe Hc.
  destruct (lookup_nonempty cs k c Hk) as (c0 & cs' & ->).
  rewrite (run_safety_check_configured r x c0 cs') by done.
  by rewrite (safety_loop_raises r x _ k c e).
Qed.

Lemma take_app_lookup {A} (l1 l2 : list A) k a :
  l1 !! k = Some a ->
  (l1 ++ l2) !! k = Some a /\ take k (l1 ++ l2) = take k l1.
Proof.
  intros Hk. pose proof (lookup_lt_Some _ _ _ Hk).
  split; [by apply lookup_app_l_Some|].
  rewrite take_app_le by lia. done.
Qed.

Lemma take_app_lookup_r {A} (l1 l2 : list A) k a :
  l2 !! k = Some a ->
  (l1 ++ l2) !! (length l1 + k) = Some a /\
  take (length l1 + k) (l1 ++ l2) = l1 ++ take k l2.
Proof.
  intros Hk. split.
  - rewrite lookup_app_r by lia. by replace (length l1 + k - length l1) with k by lia.
  - by rewrite take_app_add'.
Qed.

(** Running the checkers [cs1 ++ cs2] is running [cs1] and, only if that
    passes, running [cs2]: a block or an exception from the first list is
    final, and the second list is then never consulted. *)
Theorem checker_lists_compose r x j cs1 cs2 :
  (run_safety_check x (World (with_safety_models r (cs1 ++ cs2)) j)).2 =
  match (run_safety_check x (World (with_safety_models r cs1) j)).2 with
  | Returns (true, _) =>
      (run_safety_check x (World (with_safety_models r cs2) j)).2
  | other => other
  end.
Proof.
  destruct (first_not_safe x cs1)
    as [Hall1 | (k & c & Hk & Hsafe & [[reason Hc] | [e Hc]])].
  - rewrite (run_safety_check_passes (with_safety_models r cs1) x j cs1)
      by done.
    destruct (first_not_safe x cs2)
      as [Hall2 | (k & c & Hk & Hsafe & [[reason Hc] | [e Hc]])].
    + rewrite (run_safety_check_passes _ x j (cs1 ++ cs2)),
        (run_safety_check_passes _ x j cs2); try done.
      by apply Forall_app.
    + destruct (take_app_lookup_r cs1 cs2 k c Hk) as [Hk' Htake].
      rewrite (run_safety_check_blocks _ x j (cs1 ++ cs2) (length cs1 + k)
                 c reason),
        (run_safety_check_blocks _ x j cs2 k c reason); try done.
      rewrite Htake. by apply Forall_app.
    + destruct (take_app_lookup_r cs1 cs2 k c Hk) as [Hk' Htake].
      rewrite (run_safety_check_raises _ x j (cs1 ++ cs2) (length cs1 + k)
                 c e),
        (run_safety_check_raises _ x j cs2 k c e); try done.
      rewrite Htake. by apply Forall_app.
  - destruct (take_app_lookup cs1 cs2 k c Hk) as [Hk' Htake].
    rewrite (run_safety_check_blocks _ x j (cs1 ++ cs2) k c reason),
      (run_safety_check_blocks _ x j cs1 k c reason); try done.
    by rewrite Htake.
  - destruct (take_app_lookup cs1 cs2 k c Hk) as [Hk' Htake].
    rewrite (run_safety_check_raises _ x j (cs1 ++ cs2) k c e),
      (run_safety_check_raises _ x j cs1 k c e); try done.
    by rewrite Htake.
Qed.

(** *** The postprocessing chain *)

Lemma postprocess_loop_journal r ts frames j :
  postprocess_loop ts frames (World r j) =
  (World r (j ++ chain_journal ts frames), left_to_right ts frames).
Proof.
  revert frames j. induction ts as [|t ts IH]; intros frames j.
  - cbn. by rewrite app_nil_r.
  - rewrite postprocess_loop_cons, left_to_right_cons. cbn [chain_journal].
    destruct (PostprocessingGuardrail.postprocess t frames) as [frames'|e];
      [|done].
    rewrite IH. by rewrite <- app_assoc.
Qed.

Lemma chain_journal_returns ts frames out :
  left_to_right ts frames = Returns out ->
  (postprocessed (chain_journal (Input:=Input) ts frames)).*1 = ts /\
  logged (chain_journal (Input:=Input) ts frames) = postprocessed_by <$> ts.
Proof.
  revert frames. induction ts as [|t ts IH]; intros frames; [done|].
  rewrite left_to_right_cons. cbn [chain_journal].
  destruct (PostprocessingGuardrail.postprocess t frames) as [frames'|e];
    [|done].
  intros [H1 H2]%IH. split.
  - change (t :: (postprocessed
                    (chain_journal (Input:=Input) ts frames')).*1 = t :: ts).
    by rewrite H1.
  - change (postprocessed_by t
            :: logged (chain_journal (Input:=Input) ts frames')
            = postprocessed_by t :: (postprocessed_by <$> ts)).
    by rewrite H2.
Qed.

Lemma chain_journal_raises ts frames k t mid e :
  ts !! k = Some t ->
  left_to_right (take k ts) frames = Returns mid ->
  PostprocessingGuardrail.postprocess t mid = Raises e ->
  (postprocessed (chain_journal (Input:=Input) ts frames)).*1 = take (S k) ts /\
  logged (chain_journal (Input:=Input) ts frames) = postprocessed_by <$> take k ts /\
  last (postprocessed (chain_journal (Input:=Input) ts frames)) = Some (t, mid).
Proof.
  revert frames k. induction ts as [|t0 ts IH]; intros frames k Hk; [done|].
  destruct k as [|k]; cbn [take chain_journal].
  - cbn in Hk. intros [= ->] Ht. simplify_eq. by rewrite Ht.
  - cbn in Hk. rewrite left_to_right_cons.
    destruct (PostprocessingGuardrail.postprocess t0 frames) as [frames'|e'];
      [|done].
    intros Hmid Ht. destruct (IH frames' k Hk Hmid Ht) as (H1 & H2 & H3).
    split_and!.
    + change (t0 :: (postprocessed
                       (chain_journal (Input:=Input) ts frames')).*1
              = t0 :: take (S k) ts).
      by rewrite H1.
    + change (postprocessed_by t0
              :: logged (chain_journal (Input:=Input) ts frames')
              = postprocessed_by t0 :: (postprocessed_by <$> take k ts)).
      by rewrite H2.
    + change (last ((t0, frames)
                    :: postprocessed
                         (chain_journal (Input:=Input) ts frames'))
              = Some (t, mid)).
      rewrite last_cons. by rewrite H3.
Qed.

Lemma invoked_chain_journal ts frames :
  invoked (chain_journal (Input:=Input) ts frames) = [].
Proof.
  revert frames. induction ts as [|t ts IH]; intros frames; [done|].
  cbn [chain_journal].
  destruct (PostprocessingGuardrail.postprocess t frames) as [frames'|e];
    [|done].
  exact (IH frames').
Qed.

Lemma capital_of_upper_ascii c : capital_of c (upper_ascii c) = true.
Proof. destruct c as [[] [] [] [] [] [] [] []]; reflexivity. Qed.

(** [upper] turns each lower-case letter into its capital and keeps every
    other character. *)
Lemma upper_capitals s :
  Forall2 (fun c c' => capital_of c c' = true)
    (list_ascii_of_string s) (list_ascii_of_string (upper s)).
Proof.
  induction s as [|c s IH]; cbn; constructor; [|done].
  apply capital_of_upper_ascii.
Qed.

(** What a configured [postprocess] leaves in the journal, for transformers
    whose class names are ASCII.  It never invokes a checker.  If the chain
    returns, every transformer was called once, in configured order, and
    each call is followed by one DEBUG record "Postprocessed by " and the
    transformer's class name in upper case: the name with each lower-case
    letter replaced by its capital.  If the transformer at index [k]
    raises, it is the last one called, it received the frames the
    transformers before it produced, and only those before it are recorded
    as having postprocessed. *)
Theorem postprocess_journal r frames j ts :
  postprocessors r = Some ts -> ts <> [] ->
  Forall (fun t =>
            is_ascii_text (PostprocessingGuardrail.class_name t) = true) ts ->
  exists j',
    (postprocess frames (World r j)).1 = World r (j ++ j') /\
    invoked j' = [] /\
    (forall out,
       left_to_right ts frames = Returns out ->
       (postprocessed j').*1 = ts /\
       logged j' = postprocessed_by <$> ts) /\
    (forall k t mid e,
       ts !! k = Some t ->
       left_to_right (take k ts) frames = Returns mid ->
       PostprocessingGuardrail.postprocess t mid = Raises e ->
       (postprocessed j').*1 = take (S k) ts /\
       logged j' = postprocessed_by <$> take k ts /\
       last (postprocessed j') = Some (t, mid)) /\
    Forall (fun t =>
              exists name,
                postprocessed_by t = (DEBUG, "Postprocessed by " +:+ name) /\
                Forall2 (fun c c' => capital_of c c' = true)
                  (list_ascii_of_string (PostprocessingGuardrail.class_name t))
                  (list_ascii_of_string name)) ts.
Proof.
  intros Hp Hne _. exists (chain_journal ts frames).
  split_and!.
  - unfold postprocess, Py.bind at 1, get_self. cbn [self]. rewrite Hp.
    destruct ts as [|t ts]; [done|]. cbn [list_truthy negb default from_option id].
    by rewrite postprocess_loop_journal.
  - apply invoked_chain_journal.
  - apply chain_journal_returns.
  - apply chain_journal_raises.
  - apply Forall_forall. intros t _.
    exists (upper (PostprocessingGuardrail.class_name t)).
    split; [done|]. apply upper_capitals.
Qed.

(** Postprocessing with the transformers [ts1 ++ ts2] is postprocessing
    with [ts1] and then, on what that returns, with [ts2]. *)
Theorem transformer_lists_compose r1 r2 r12 frames j ts1 ts2 :
  postprocessors r1 = Some ts1 ->
  postprocessors r2 = Some ts2 ->
  postprocessors r12 = Some (ts1 ++ ts2) ->
  (postprocess frames (World r12 j)).2 =
  match (postprocess frames (World r1 j)).2 with
  | Returns mid => (postprocess mid (World r2 j)).2
  | Raises e => Raises e
  end.
Proof.
  intros H1 H2 H12.
  destruct (postprocess_outcome r12 frames j) as [j12 ->].
  destruct (postprocess_outcome r1 frames j) as [j1 ->].
  cbn [snd]. rewrite H12, H1. cbn [default from_option id].
  rewrite left_to_right_app.
  destruct (left_to_right ts1 frames) as [mid|e]; [|done].
  destruct (postprocess_outcome r2 mid j) as [j2 ->].
  cbn [snd]. by rewrite H2.
Qed.

End RunnerFurther.

(** *** The further properties on the example configurations *)

Section RunnerFurtherExamples.
Import GuardrailRunner Examples.

Lemma checkers_invoked_form_a_prefix_witness :
  exists n,
    1 <= n <= 3 /\
    (run_safety_check "a prompt" (World abc [])).1
    = World abc ([] ++ invocations "a prompt" (take n [A; B; C])).
Proof.
  apply (checkers_invoked_form_a_prefix abc "a prompt" [] [A; B; C]).
  - reflexivity.
  - discriminate.
Defined.

Lemma block_traces_to_a_checker_witness :
  exists cs k c reason,
    safety_models abc = Some cs /\ cs !! k = Some c /\
    Forall (reports_safe "a prompt") (take k cs) /\
    reports_unsafe "a prompt" reason c /\
    "R blocked input" = block_msg abc reason.
Proof.
  apply (block_traces_to_a_checker abc "a prompt" []
           (World abc [IsSafeCall A "a prompt"; IsSafeCall B "a prompt"])).
  reflexivity.
Defined.

Lemma runner_raises_only_what_a_guardrail_raises_witness :
  (exists cs k c,
     safety_models with_broken = Some cs /\ cs !! k = Some c /\
     Forall (reports_safe "a prompt") (take k cs) /\
     ContentSafetyGuardrail.is_safe c "a prompt"
     = Raises (NotImplementedError
                 "Child classes must implement the is_safe method")) /\
  (exists ts k t mid,
     postprocessors with_broken = Some ts /\ ts !! k = Some t /\
     left_to_right (take k ts) [1; 2; 3]%Z = Returns mid /\
     PostprocessingGuardrail.postprocess t mid
     = Raises (PyExc "RuntimeError" "out of memory")).
Proof.
  destruct (runner_raises_only_what_a_guardrail_raises with_broken)
    as [Hcheck Hpost].
  split.
  - apply (Hcheck "a prompt" []
             (World with_broken [IsSafeCall A "a prompt";
                                 IsSafeCall (broken "Stub") "a prompt"])).
    reflexivity.
  - apply (Hpost [1; 2; 3]%Z []
             (World with_broken
                [PostprocessCall double_brightness [1; 2; 3]%Z;
                 Log DEBUG "Postprocessed by DOUBLEBRIGHTNESS";
                 PostprocessCall failing_blur [2; 4; 6]%Z])).
    reflexivity.
Defined.

Lemma returned_message_never_empty_witness : "R blocked input" <> "".
Proof.
  apply (returned_message_never_empty (Frames:=list Z)
           (Some [A; B; C]) None None None "a prompt" []
           (World (init (Some [A; B; C]) None None None)
              [IsSafeCall A "a prompt"; IsSafeCall B "a prompt"])
           false).
  reflexivity.
Defined.

Lemma verdict_is_conjunction_witness :
  exists msg,
    (run_safety_check "a prompt" (World abc [])).2
    = Returns (forallb fst [(true, ""); (false, "R"); (true, "")], msg).
Proof.
  apply (verdict_is_conjunction abc "a prompt" [] [A; B; C]).
  - reflexivity.
  - repeat constructor.
Defined.

Lemma verdict_ignores_checker_order_witness :
  exists ok msg msg',
    (run_safety_check "a prompt"
       (World (with_safety_models abc [A; B; C]) [])).2 = Returns (ok, msg) /\
    (run_safety_check "a prompt"
       (World (with_safety_models abc [B; A; C]) [])).2 = Returns (ok, msg').
Proof.
  apply (verdict_ignores_checker_order abc "a prompt" [] [A; B; C] [B; A; C]).
  - apply perm_swap.
  - repeat constructor; eexists; reflexivity.
Defined.

Lemma postprocess_journal_witness :
  exists j',
    (postprocess [1; 2; 3]%Z (World with_broken [])).1
    = World with_broken ([] ++ j') /\
    (postprocessed j').*1 = [double_brightness; failing_blur] /\
    logged j' = [(DEBUG, "Postprocessed by DOUBLEBRIGHTNESS")] /\
    last (postprocessed j') = Some (failing_blur, [2; 4; 6]%Z).
Proof.
  destruct (postprocess_journal with_broken [1; 2; 3]%Z []
              [double_brightness; failing_blur; crop_to_2])
    as (j' & Hrun & _ & _ & Hraise & _).
  - reflexivity.
  - discriminate.
  - repeat constructor.
  - exists j'. split; [exact Hrun|].
    apply (Hraise 1 failing_blur [2; 4; 6]%Z
             (PyExc "RuntimeError" "out of memory")).
    + reflexivity.
    + reflexivity.
    + reflexivity.
Defined.

Lemma transformer_lists_compose_witness :
  (postprocess [1; 2; 3]%Z (World abc [])).2 =
  match (postprocess [1; 2; 3]%Z
           (World (init (Input:=string) None None None
                     (Some [double_brightness])) [])).2 with
  | Returns mid =>
      (postprocess mid
         (World (init (Input:=string) None None None (Some [crop_to_2])) [])).2
  | Raises e => Raises e
  end.
Proof.
  apply (transformer_lists_compose
           (init (Input:=string) None None None (Some [double_brightness]))
           (init (Input:=string) None None None (Some [crop_to_2]))
           abc [1; 2; 3]%Z []
           [double_brightness] [crop_to_2]).
  - reflexivity.
  - reflexivity.
  - reflexivity.
Defined.

End RunnerFurtherExamples.

(** ** Further properties of the text2world driver *)

Lemma prefix_append s t : String.prefix s (s +:+ t) = true.
Proof.
  induction s as [|a s IH]; [by destruct t|].
  cbn. by destruct (ascii_dec a a).
Qed.

(** A file named by an index lies under the folder it is joined to. *)
Lemma indexed_path_under_folder folder i ext :
  starts_with_sep ext = false ->
  String.prefix folder (path_join folder (str_of_nat i +:+ ext)) = true.
Proof.
  intros Hext. rewrite path_join_relative by by apply indexed_name_relative.
  destruct (negb (str_truthy folder) || ends_with_sep folder).
  - apply prefix_append.
  - rewrite append_assoc. apply prefix_append.
Qed.

Section DemoFurther.
Context {float Video Pipeline : Type}.
Variable ext : @Text2World.Externals float Video Pipeline.
Implicit Types (cfg args : @Text2World.Namespace float)
  (j : list (@Text2World.event float Video))
  (prompts : list (gmap string pyval)) (pipeline : Pipeline).

Import Text2World.

(** *** A batch that runs to its end *)

Lemma demo_batch_run cfg args pipeline path prompts j :
  batch_ready ext cfg pipeline path prompts ->
  demo ext cfg (World (Some args) j) =
  (World (Some args)
     (j ++ setup_journal cfg args path
        ++ [Makedirs (video_save_folder cfg)]
        ++ batch_journal ext cfg pipeline 0 prompts),
   Returns tt).
Proof.
  intros (Hpath & Ht & (Hv & Hp & Hm) & Hr & Hgen & Hsave).
  rewrite (demo_batch_setup ext cfg args pipeline path prompts) by done.
  rewrite demo_loop_journal; [|by rewrite Hpath|done..].
  by rewrite <- !app_assoc.
Qed.

Lemma generate_calls_app j1 j2 :
  generate_calls (j1 ++ j2)
  = generate_calls (float:=float) (Video:=Video) j1 ++ generate_calls j2.
Proof. apply omap_app. Qed.

Lemma texts_written_app j1 j2 :
  texts_written (j1 ++ j2)
  = texts_written (float:=float) (Video:=Video) j1 ++ texts_written j2.
Proof. apply omap_app. Qed.

Lemma NoDup_batch_files cfg pipeline prompts i :
  NoDup (batch_files ext cfg pipeline i prompts).
Proof.
  revert i. induction prompts as [|d rest IH]; intros i; [constructor|].
  cbn [batch_files]. apply NoDup_app. split_and!; [| |done].
  - destruct (fate_of ext cfg pipeline d); cbn; try constructor.
    + rewrite list_elem_of_singleton. apply video_path_ne_text_path.
    + apply NoDup_singleton.
  - intros x Hx (k & d' & video & prompt & _ & _ & Hk)%elem_of_batch_files.
    destruct (fate_of ext cfg pipeline d); cbn in Hx;
      try by apply elem_of_nil in Hx.
    apply elem_of_cons in Hx as [-> | ->%list_elem_of_singleton];
      destruct Hk as [Hk | Hk].
    + apply video_path_inj in Hk. lia.
    + by apply video_path_ne_text_path in Hk.
    + symmetry in Hk. by apply video_path_ne_text_path in Hk.
    + apply text_path_inj in Hk. lia.
Qed.

(** In a batch run no output file is written twice: the files of
    different entries, and the two files of one entry, all have
    different paths. *)
Theorem batch_outputs_are_distinct cfg args pipeline path prompts j :
  batch_ready ext cfg pipeline path prompts ->
  exists j',
    demo ext cfg (World (Some args) j)
    = (World (Some args) (j ++ j'), Returns tt) /\
    NoDup (written j').
Proof.
  intros Hready. eexists. split; [by apply demo_batch_run|].
  destruct Hready as (_ & _ & _ & _ & Hgen & _).
  rewrite !written_app, written_batch_journal by done.
  apply NoDup_batch_files.
Qed.

(** In a batch run every output file lies under [video_save_folder]: its
    path starts with the folder's. *)
Theorem batch_outputs_stay_in_folder cfg args pipeline path prompts j :
  batch_ready ext cfg pipeline path prompts ->
  exists j',
    demo ext cfg (World (Some args) j)
    = (World (Some args) (j ++ j'), Returns tt) /\
    Forall (fun p => String.prefix (video_save_folder cfg) p = true)
      (written j').
Proof.
  intros Hready. eexists. split; [by apply demo_batch_run|].
  destruct Hready as (_ & _ & _ & _ & Hgen & _).
  rewrite !written_app, written_batch_journal by done.
  apply Forall_forall.
  intros x (k & d & video & prompt & _ & _ & [-> | ->])%elem_of_batch_files;
    by apply indexed_path_under_folder.
Qed.

Lemma generate_calls_batch_journal cfg pipeline prompts i :
  (forall d e, d ∈ prompts -> fate_of ext cfg pipeline d <> Failed e) ->
  generate_calls (batch_journal ext cfg pipeline i prompts)
  = (fun current_prompt =>
       (current_prompt, negative_prompt cfg,
        word_limit_to_skip_upsampler cfg)) <$> prompts_present prompts.
Proof.
  revert i. induction prompts as [|d rest IH]; intros i Hgen; [done|].
  cbn [batch_journal]. rewrite generate_calls_app, IH
    by (intros d' e Hd'; apply Hgen; by right).
  assert (Hd : forall e, fate_of ext cfg pipeline d <> Failed e)
    by (intros e; apply Hgen; by left).
  unfold prompts_present. cbn [omap list_omap].
  unfold entry_journal, fate_of in *.
  destruct (get_prompt d) as [|current_prompt]; [done|].
  destruct (generate ext pipeline current_prompt (negative_prompt cfg)
              (word_limit_to_skip_upsampler cfg)) as [[[video prompt]|]|e];
    [done | done | by destruct (Hd e)].
Qed.

(** In a batch run [generate] is called once for each entry that has a
    prompt, in batch order, with that prompt and the configured negative
    prompt and word limit; it is never called for an entry without one. *)
Theorem generate_runs_once_per_prompt cfg args pipeline path prompts j :
  batch_ready ext cfg pipeline path prompts ->
  exists j',
    demo ext cfg (World (Some args) j)
    = (World (Some args) (j ++ j'), Returns tt) /\
    generate_calls j'
    = (fun current_prompt =>
         (current_prompt, negative_prompt cfg,
          word_limit_to_skip_upsampler cfg)) <$> prompts_present prompts.
Proof.
  intros Hready. eexists. split; [by apply demo_batch_run|].
  destruct Hready as (_ & _ & _ & _ & Hgen & _).
  by rewrite !generate_calls_app, generate_calls_batch_journal.
Qed.

Lemma texts_written_batch_journal cfg pipeline prompts i k d video prompt :
  prompts !! k = Some d ->
  fate_of ext cfg pipeline d = Generated video prompt ->
  (text_path cfg (i + k), list_byte_of_string prompt)
  ∈ texts_written (batch_journal ext cfg pipeline i prompts).
Proof.
  revert i k. induction prompts as [|d0 rest IH]; intros i k Hk Hf; [done|].
  cbn [batch_journal]. rewrite texts_written_app, elem_of_app.
  destruct k as [|k]; cbn in Hk.
  - left. simplify_eq. rewrite Hf, Nat.add_0_r.
    unfold entry_journal. unfold fate_of in Hf.
    destruct (get_prompt d) as [|current_prompt]; [done|].
    cbn. by left.
  - right. replace (i + S k) with (S i + k) by lia. by apply IH.
Qed.

(** In a batch run the text file of a generated entry holds the UTF-8
    bytes of the prompt the pipeline returned for it (which need not be the
    prompt of the entry), under the entry's index. *)
Theorem text_file_holds_returned_prompt
    cfg args pipeline path prompts j i d video prompt :
  batch_ready ext cfg pipeline path prompts ->
  prompts !! i = Some d ->
  fate_of ext cfg pipeline d = Generated video prompt ->
  exists j',
    demo ext cfg (World (Some args) j)
    = (World (Some args) (j ++ j'), Returns tt) /\
    (text_path cfg i, list_byte_of_string prompt) ∈ texts_written j'.
Proof.
  intros Hready Hi Hf. eexists. split; [by apply demo_batch_run|].
  rewrite !texts_written_app, !elem_of_app. right; right.
  by apply (texts_written_batch_journal cfg pipeline prompts 0 i d video).
Qed.

(** *** A batch that [generate] interrupts *)

Lemma demo_loop_app cfg pipeline l1 l2 i w :
  demo_loop ext cfg pipeline i (l1 ++ l2) w =
  match demo_loop ext cfg pipeline i l1 w with
  | (w', Returns _) => demo_loop ext cfg pipeline (i + length l1) l2 w'
  | (w', Raises e) => (w', Raises e)
  end.
Proof.
  revert i w. induction l1 as [|d l1 IH]; intros i w.
  - cbn. by rewrite Nat.add_0_r.
  - cbn [app demo_loop length]. unfold Py.bind.
    destruct (demo_body ext cfg pipeline i d w) as [w' [[]|e]]; [|done].
    rewrite IH. by replace (S i + length l1) with (i + S (length l1)) by lia.
Qed.

Lemma demo_body_failed cfg pipeline i d e :
  fate_of ext cfg pipeline d = Failed e ->
  exists current_prompt,
    get_prompt d = PyStr current_prompt /\
    forall g j,
      demo_body ext cfg pipeline i d (World g j) =
      (World g (j ++ [Generate current_prompt (negative_prompt cfg)
                        (word_limit_to_skip_upsampler cfg)]),
       Raises e).
Proof.
  unfold fate_of, demo_body.
  destruct (get_prompt d) as [|current_prompt]; [done|].
  intros Hf. exists current_prompt. split; [done|]. intros g j.
  unfold Py.bind at 1. cbn [emit Py.modify global_args journal].
  unfold Py.bind at 1. cbn [Py.lift].
  destruct (generate ext pipeline current_prompt (negative_prompt cfg)
              (word_limit_to_skip_upsampler cfg)) as [[[video prompt]|]|e'];
    by simplify_eq.
Qed.

Lemma prompts_present_snoc prompts d current_prompt :
  get_prompt d = PyStr current_prompt ->
  prompts_present (prompts ++ [d])
  = prompts_present prompts ++ [current_prompt].
Proof.
  intros Hd. unfold prompts_present. rewrite omap_app. cbn. by rewrite Hd.
Qed.

(** When [generate] raises on the entry at index [k], the batch ends
    there with that exception: the files of the entries before it stay
    written, nothing is written for it, and no later entry is ever passed
    to [generate]. *)
Theorem batch_stops_where_generate_raises
    cfg args pipeline path prompts k d e j :
  batch_input_path cfg = Some path -> str_truthy path = true ->
  set_up ext cfg pipeline ->
  read_prompts_from_file ext path = Returns prompts ->
  prompts !! k = Some d ->
  fate_of ext cfg pipeline d = Failed e ->
  processable ext cfg pipeline 0 (take k prompts) ->
  exists j',
    demo ext cfg (World (Some args) j)
    = (World (Some args) (j ++ j'), Raises e) /\
    written j' = batch_files ext cfg pipeline 0 (take k prompts) /\
    generate_calls j'
    = (fun current_prompt =>
         (current_prompt, negative_prompt cfg,
          word_limit_to_skip_upsampler cfg))
      <$> prompts_present (take (S k) prompts).
Proof.
  intros Hpath Ht (Hv & Hp & Hm) Hr Hk Hf (Hgen & Hsave).
  destruct (demo_body_failed cfg pipeline k d e Hf)
    as (current_prompt & Hd & Hbody).
  exists (setup_journal cfg args path
          ++ [Makedirs (video_save_folder cfg)]
          ++ batch_journal ext cfg pipeline 0 (take k prompts)
          ++ [Generate current_prompt (negative_prompt cfg)
                (word_limit_to_skip_upsampler cfg)]).
  split_and!.
  - rewrite (demo_batch_setup ext cfg args pipeline path prompts) by done.
    rewrite (split_at prompts k d Hk) at 1.
    rewrite demo_loop_app, demo_loop_journal; [|by rewrite Hpath|done..].
    cbn [demo_loop]. unfold Py.bind at 1.
    rewrite length_take_le by (apply Nat.lt_le_incl; by eapply lookup_lt_Some).
    cbn [Nat.add]. rewrite Hbody.
    by rewrite <- !app_assoc.
  - rewrite !written_app, written_batch_journal by done.
    cbn. by rewrite app_nil_r.
  - rewrite !generate_calls_app, generate_calls_batch_journal by done.
    erewrite take_S_r by done. erewrite prompts_present_snoc by done.
    by rewrite fmap_app.
Qed.

(** *** Run as a script *)

(** Run through the [__main__] block in batch mode, [demo] finds the global
    [args] bound to its own argument: once the set-up has returned it logs
    the very path it then reads the prompts from, whatever [args] was bound
    to before. *)
Theorem script_run_logs_the_path_it_reads parsed pipeline path g j :
  batch_input_path parsed = Some path -> str_truthy path = true ->
  validate_args ext parsed "text2world" = Returns tt ->
  DiffusionText2WorldGenerationPipeline ext
    (pipeline_kwargs parsed "text2world") = Returns pipeline ->
  exists j' o,
    main ext parsed (World g j) =
    (World (Some parsed)
       (j ++ [SetRandomSeed (seed parsed);
              ValidateArgs parsed "text2world";
              NewPipeline (pipeline_kwargs parsed "text2world");
              Log INFO ("Reading batch inputs from path: " +:+ path);
              ReadPrompts path] ++ j'), o).
Proof.
  intros Hpath Ht Hv Hp.
  destruct (demo_batch_reads ext parsed parsed pipeline path j Hpath Ht Hv Hp)
    as (j' & o & Hrun).
  exists j', o. unfold main, Py.bind, Py.modify, load_global_args.
  cbn [global_args journal]. rewrite Hrun.
  unfold setup_journal. by rewrite Hpath.
Qed.

(** *** A single prompt *)

Lemma get_prompt_single cfg :
  get_prompt (default ∅ (head (single_prompt cfg)))
  = match prompt cfg with
    | Some current_prompt => PyStr current_prompt
    | None => PyNone
    end.
Proof. unfold get_prompt, single_prompt. cbn. by rewrite lookup_singleton_eq. Qed.

(** In single-prompt mode with the set-up going through, [demo] gets to
    the loop body of its one entry. *)
Lemma demo_single_setup cfg pipeline g j :
  opt_truthy (batch_input_path cfg) = false ->
  set_up ext cfg pipeline ->
  demo ext cfg (World g j) =
  demo_body ext cfg pipeline 0 (default ∅ (head (single_prompt cfg)))
    (World g (j ++ single_setup_journal cfg)).
Proof.
  intros Hbatch (Hv & Hp & Hm).
  unfold demo, Py.bind, load_global_args, log, emit, Py.modify, Py.lift, Py.ret.
  cbn [global_args journal]. rewrite Hv, Hp, Hbatch.
  cbn [global_args journal]. rewrite Hm.
  unfold single_prompt. cbn [demo_loop head default from_option id].
  unfold Py.bind, Py.ret, single_setup_journal. rewrite <- !app_assoc.
  cbn [app].
  by destruct (demo_body _ _ _ _ _ _) as [w [[]|e]].
Qed.

Lemma demo_body_frame2 cfg pipeline i d g1 g2 j :
  exists j' o,
    demo_body ext cfg pipeline i d (World g1 j) = (World g1 (j ++ j'), o) /\
    demo_body ext cfg pipeline i d (World g2 j) = (World g2 (j ++ j'), o) /\
    prompts_read j' = [].
Proof.
  unfold demo_body.
  destruct (get_prompt d) as [|current_prompt]; [by eexists [_], _|].
  unfold Py.bind, log, emit, Py.modify, Py.lift. cbn [global_args journal].
  destruct (generate ext pipeline current_prompt (negative_prompt cfg)
              (word_limit_to_skip_upsampler cfg)) as [[[video upsampled]|]|e].
  - destruct (save_paths cfg i) as [video_save_path prompt_save_path].
    cbn [global_args journal].
    destruct (save_video ext video (fps cfg) (height cfg) (width cfg) 5
                video_save_path) as [[]|e];
      [destruct (write_file ext prompt_save_path
                   (list_byte_of_string upsampled)) as [[]|e]|];
      cbn [global_args journal]; rewrite <- !app_assoc; by eexists _, _.
  - cbn [global_args journal]. rewrite <- !app_assoc. by eexists _, _.
  - by eexists [_], _.
Qed.

(** Without a batch file [demo] never looks at the global [args] and never
    reads a prompt file: called with [args] unbound, or bound to anything,
    it does the same and ends the same way. *)
Theorem single_prompt_needs_no_global_args cfg g1 g2 j :
  opt_truthy (batch_input_path cfg) = false ->
  exists j' o,
    demo ext cfg (World g1 j) = (World g1 (j ++ j'), o) /\
    demo ext cfg (World g2 j) = (World g2 (j ++ j'), o) /\
    prompts_read j' = [].
Proof.
  intros Hbatch.
  unfold demo, Py.bind, load_global_args, log, emit, Py.modify, Py.lift, Py.ret.
  cbn [global_args journal]. rewrite Hbatch.
  destruct (validate_args ext cfg "text2world") as [[]|e];
    [|rewrite <- !app_assoc; by eexists _, _].
  destruct (DiffusionText2WorldGenerationPipeline ext
              (pipeline_kwargs cfg "text2world")) as [pipeline|e];
    cbn [global_args journal]; [|rewrite <- !app_assoc; by eexists _, _].
  destruct (makedirs ext (video_save_folder cfg)) as [[]|e];
    [|rewrite <- !app_assoc; by eexists _, _].
  unfold single_prompt. cbn [demo_loop]. unfold Py.bind, Py.ret.
  match goal with
  | |- context [demo_body _ _ _ _ ?d (World g1 ?J)] =>
      destruct (demo_body_frame2 cfg pipeline 0 d g1 g2 J)
        as (j' & o & -> & -> & Hread)
  end.
  exists ([SetRandomSeed (seed cfg); ValidateArgs cfg "text2world";
           NewPipeline (pipeline_kwargs cfg "text2world");
           Makedirs (video_save_folder cfg)] ++ j'), o.
  rewrite <- !app_assoc. cbn [app].
  split_and!; [by destruct o as [[]|e]..|done].
Qed.

(** A single prompt that is generated: the video and the text are saved
    under [video_save_name] (no index), and the text is the prompt the
    pipeline returned. *)
Theorem single_prompt_outputs cfg pipeline current_prompt video upsampled g j :
  opt_truthy (batch_input_path cfg) = false ->
  set_up ext cfg pipeline ->
  prompt cfg = Some current_prompt ->
  generate ext pipeline current_prompt (negative_prompt cfg)
    (word_limit_to_skip_upsampler cfg) = Returns (Some (video, upsampled)) ->
  save_video ext video (fps cfg) (height cfg) (width cfg) 5
    (path_join (video_save_folder cfg) (video_save_name cfg +:+ ".mp4"))
  = Returns tt ->
  write_file ext
    (path_join (video_save_folder cfg) (video_save_name cfg +:+ ".txt"))
    (list_byte_of_string upsampled) = Returns tt ->
  exists j',
    demo ext cfg (World g j) = (World g (j ++ j'), Returns tt) /\
    generate_calls j'
    = [(current_prompt, negative_prompt cfg,
        word_limit_to_skip_upsampler cfg)] /\
    written j'
    = [path_join (video_save_folder cfg) (video_save_name cfg +:+ ".mp4");
       path_join (video_save_folder cfg) (video_save_name cfg +:+ ".txt")] /\
    texts_written j'
    = [(path_join (video_save_folder cfg) (video_save_name cfg +:+ ".txt"),
        list_byte_of_string upsampled)] /\
    criticals j' = [].
Proof.
  intros Hbatch Hset Hprompt Hgen Hsave Hwrite.
  rewrite (demo_single_setup cfg pipeline) by done.
  unfold demo_body. rewrite get_prompt_single, Hprompt.
  unfold save_paths. rewrite Hbatch.
  unfold Py.bind, log, emit, Py.modify, Py.lift.
  cbn [global_args journal]. rewrite Hgen.
  cbn [global_args journal]. rewrite Hsave, Hwrite.
  cbn [global_args journal]. rewrite <- !app_assoc.
  eexists. split; [done|]. done.
Qed.

(** A single prompt that is missing ([cfg.prompt] is [None]) or that the
    pipeline blocks: [demo] logs one CRITICAL record, writes no file and
    returns normally; a missing prompt is not even passed to [generate]. *)
Theorem single_prompt_skipped cfg pipeline g j :
  opt_truthy (batch_input_path cfg) = false ->
  set_up ext cfg pipeline ->
  (prompt cfg = None \/
   exists current_prompt,
     prompt cfg = Some current_prompt /\
     generate ext pipeline current_prompt (negative_prompt cfg)
       (word_limit_to_skip_upsampler cfg) = Returns None) ->
  exists j',
    demo ext cfg (World g j) = (World g (j ++ j'), Returns tt) /\
    written j' = [] /\
    length (criticals j') = 1 /\
    (prompt cfg = None -> generate_calls j' = []).
Proof.
  intros Hbatch Hset Hskip.
  rewrite (demo_single_setup cfg pipeline) by done.
  unfold demo_body. rewrite get_prompt_single.
  destruct Hskip as [-> | (current_prompt & -> & Hgen)].
  - unfold log, emit, Py.modify. cbn [global_args journal].
    rewrite <- !app_assoc. by eexists.
  - unfold Py.bind, log, emit, Py.modify, Py.lift.
    cbn [global_args journal]. rewrite Hgen.
    cbn [global_args journal]. rewrite <- !app_assoc.
    eexists. split; [done|]. done.
Qed.

End DemoFurther.

(** *** The further properties on the example runs *)

Section DemoFurtherRuns.
Import Text2World.

(** The example batch of three entries is ready to run. *)
Lemma example_batch_ready :
  batch_ready DemoExamples.ext DemoExamples.cfg tt "prompts.jsonl"
    DemoExamples.three_prompts.
Proof.
  unfold batch_ready, set_up, processable. split_and!; try reflexivity.
  - intros d e Hd. unfold DemoExamples.three_prompts in Hd.
    repeat (apply elem_of_cons in Hd as [-> | Hd]);
      [vm_compute; discriminate..|by apply elem_of_nil in Hd].
  - intros k d video upsampled _ _. split; reflexivity.
Defined.

Lemma batch_outputs_are_distinct_witness :
  exists j',
    demo DemoExamples.ext DemoExamples.cfg (World (Some DemoExamples.cfg) [])
    = (World (Some DemoExamples.cfg) ([] ++ j'), Returns tt) /\
    NoDup (written j').
Proof.
  apply (batch_outputs_are_distinct DemoExamples.ext DemoExamples.cfg
           DemoExamples.cfg tt "prompts.jsonl" DemoExamples.three_prompts []).
  exact example_batch_ready.
Defined.

Lemma batch_outputs_stay_in_folder_witness :
  exists j',
    demo DemoExamples.ext DemoExamples.cfg (World (Some DemoExamples.cfg) [])
    = (World (Some DemoExamples.cfg) ([] ++ j'), Returns tt) /\
    Forall (fun p => String.prefix "outputs" p = true) (written j').
Proof.
  apply (batch_outputs_stay_in_folder DemoExamples.ext DemoExamples.cfg
           DemoExamples.cfg tt "prompts.jsonl" DemoExamples.three_prompts []).
  exact example_batch_ready.
Defined.

Lemma generate_runs_once_per_prompt_witness :
  exists j',
    demo DemoExamples.ext DemoExamples.cfg (World (Some DemoExamples.cfg) [])
    = (World (Some DemoExamples.cfg) j', Returns tt) /\
    generate_calls j'
    = [("a robot arm", None, 250%Z); ("a city street", None, 250%Z)].
Proof.
  destruct (generate_runs_once_per_prompt DemoExamples.ext DemoExamples.cfg
              DemoExamples.cfg tt "prompts.jsonl" DemoExamples.three_prompts
              [] example_batch_ready)
    as (j' & Hrun & Hcalls).
  exists j'. split; [exact Hrun|]. rewrite Hcalls. vm_compute. reflexivity.
Defined.

Lemma text_file_holds_returned_prompt_witness :
  exists j',
    demo DemoExamples.ext DemoExamples.cfg (World (Some DemoExamples.cfg) [])
    = (World (Some DemoExamples.cfg) j', Returns tt) /\
    ("outputs/2.txt", list_byte_of_string "a city street") ∈ texts_written j'.
Proof.
  apply (text_file_holds_returned_prompt DemoExamples.ext DemoExamples.cfg
           DemoExamples.cfg tt "prompts.jsonl" DemoExamples.three_prompts []
           2 {[ "prompt" := PyStr "a city street" ]} 121 "a city street").
  - exact example_batch_ready.
  - reflexivity.
  - vm_compute. reflexivity.
Defined.

(** The second of three prompts makes [generate] raise: the files of the
    first are written, and the third is never generated. *)
Lemma batch_stops_where_generate_raises_witness :
  exists j',
    demo DemoFurtherExamples.ext DemoExamples.cfg
      (World (Some DemoExamples.cfg) [])
    = (World (Some DemoExamples.cfg) j',
       Raises (PyExc "RuntimeError" "CUDA out of memory")) /\
    written j' = ["outputs/0.mp4"; "outputs/0.txt"] /\
    generate_calls j'
    = [("a robot arm", None, 250%Z); ("crash", None, 250%Z)].
Proof.
  destruct (batch_stops_where_generate_raises DemoFurtherExamples.ext
              DemoExamples.cfg DemoExamples.cfg tt "prompts.jsonl"
              DemoFurtherExamples.crashing_prompts 1
              {[ "prompt" := PyStr "crash" ]}
              (PyExc "RuntimeError" "CUDA out of memory") [])
    as (j' & Hrun & Hw & Hcalls).
  - reflexivity.
  - reflexivity.
  - split_and!; reflexivity.
  - reflexivity.
  - reflexivity.
  - vm_compute. reflexivity.
  - split.
    + intros d e Hd. cbn in Hd.
      apply list_elem_of_singleton in Hd as ->. vm_compute. discriminate.
    + intros k d video upsampled _ _. split; reflexivity.
  - exists j'. split_and!.
    + exact Hrun.
    + rewrite Hw. vm_compute. reflexivity.
    + rewrite Hcalls. vm_compute. reflexivity.
Defined.

Lemma script_run_logs_the_path_it_reads_witness :
  exists j' o,
    main DemoExamples.ext DemoExamples.cfg (World None []) =
    (World (Some DemoExamples.cfg)
       ([] ++ [SetRandomSeed 42;
               ValidateArgs DemoExamples.cfg "text2world";
               NewPipeline (pipeline_kwargs DemoExamples.cfg "text2world");
               Log INFO "Reading batch inputs from path: prompts.jsonl";
               ReadPrompts "prompts.jsonl"] ++ j'), o).
Proof.
  apply (script_run_logs_the_path_it_reads DemoExamples.ext DemoExamples.cfg
           tt "prompts.jsonl" None []).
  - reflexivity.
  - reflexivity.
  - reflexivity.
  - reflexivity.
Defined.

Lemma single_prompt_needs_no_global_args_witness :
  exists j' o,
    demo DemoExamples.ext (DemoFurtherExamples.single (Some "a robot arm"))
      (World None [])
    = (World None ([] ++ j'), o) /\
    demo DemoExamples.ext (DemoFurtherExamples.single (Some "a robot arm"))
      (World (Some DemoExamples.cfg) [])
    = (World (Some DemoExamples.cfg) ([] ++ j'), o) /\
    prompts_read j' = [].
Proof.
  apply (single_prompt_needs_no_global_args DemoExamples.ext
           (DemoFurtherExamples.single (Some "a robot arm"))
           None (Some DemoExamples.cfg) []).
  reflexivity.
Defined.

Lemma single_prompt_outputs_witness :
  exists j',
    demo DemoFurtherExamples.ext
      (DemoFurtherExamples.single (Some "a robot arm")) (World None [])
    = (World None j', Returns tt) /\
    written j' = ["outputs/output.mp4"; "outputs/output.txt"] /\
    texts_written j'
    = [("outputs/output.txt",
        list_byte_of_string "a robot arm, cinematic")].
Proof.
  destruct (single_prompt_outputs DemoFurtherExamples.ext
              (DemoFurtherExamples.single (Some "a robot arm")) tt
              "a robot arm" 121 "a robot arm, cinematic" None [])
    as (j' & Hrun & _ & Hw & Ht & _).
  - reflexivity.
  - split_and!; reflexivity.
  - reflexivity.
  - reflexivity.
  - reflexivity.
  - reflexivity.
  - exists j'. split_and!; [exact Hrun | exact Hw | exact Ht].
Defined.

Lemma single_prompt_skipped_witness :
  exists j',
    demo DemoExamples.ext (DemoFurtherExamples.single None) (World None [])
    = (World None ([] ++ j'), Returns tt) /\
    written j' = [] /\
    length (criticals j') = 1 /\
    (prompt (DemoFurtherExamples.single None) = None ->
     generate_calls j' = []).
Proof.
  apply (single_prompt_skipped DemoExamples.ext
           (DemoFurtherExamples.single None) tt None []).
  - reflexivity.
  - split_and!; reflexivity.
  - left. reflexivity.
Defined.

End DemoFurtherRuns.
